(** * exio: a shallow embedding of [exio.c] / [exio.h]

    Each C function of the library is embedded as a function over an
    explicit model of the part of the operating system it talks to
    (streams, terminal, environment, file system, descriptor table,
    signal dispositions).  C strings are lists of characters; a buffer
    is the list of the bytes it holds. *)

From Stdlib Require Import ZArith Ascii String List Lia Bool.
From stdpp Require Import base gmap strings list.

Open Scope list_scope.

(** ** Characters and C strings *)

Module Chars.

Definition NUL   : ascii := ascii_of_nat 0.
Definition NL    : ascii := ascii_of_nat 10.
Definition ESC   : ascii := ascii_of_nat 27.
Definition SLASH : ascii := "/"%char.

(** A string literal, as the list of its characters (no terminator). *)
Definition lit (s : string) : list ascii := list_ascii_of_string s.

(** The C string stored at the start of a buffer: the characters before
    the first NUL. *)
Fixpoint cstr (buf : list ascii) : list ascii :=
  match buf with
  | [] => []
  | c :: rest => if Ascii.eqb c NUL then [] else c :: cstr rest
  end.

(** [strlen] of the string stored at the start of a buffer. *)
Definition strlen (buf : list ascii) : Z := Z.of_nat (length (cstr buf)).

(** Storing [new] at the start of [old], as a C library call that
    writes [length new] bytes through a pointer to the buffer does. *)
Definition overwrite (old new : list ascii) : list ascii :=
  new ++ drop (length new) old.

End Chars.

(** ** The diagnostic stream

    [stderr] is the text written so far together with the outcome of the
    write calls still to come: the head of [faults] tells whether the next
    call fails ([true]); an exhausted list means no further failure. *)

Module Ostream.

Record t := mk { written : list ascii; faults : list bool }.

Definition healthy (out : list ascii) : t := mk out [].

(** One write call of the C library on the stream. *)
Definition write (s : list ascii) (st : t) : bool * t :=
  match faults st with
  | true :: fs => (false, mk (written st) fs)
  | false :: fs => (true, mk (written st ++ s) fs)
  | [] => (true, mk (written st ++ s) [])
  end.

(** [fputs(s, stderr) != EOF] *)
Definition fputs (s : list ascii) (st : t) : bool * t := write s st.

(** [fputc(c, stderr) != EOF] *)
Definition fputc (c : ascii) (st : t) : bool * t := write [c] st.

(** Whether the [k]-th write call from now on fails. *)
Definition fault_at (k : nat) (st : t) : bool := nth k (faults st) false.

End Ostream.

(** ** Diagnostic writers: [err], [warn], [info] *)

Module Msg.
Import Chars.

Section Writers.

(** [EXIO_USE_COLOUR] is defined. *)
Variable EXIO_USE_COLOUR : bool.

(** printf-style rendering belongs to the C library: the format, the
    argument list, and the text [vfprintf] produces for them, or
    [None] when the conversion fails. *)
Variable format : Type.
Variable va_list : Type.
Variable render : format -> va_list -> option (list ascii).

Definition C_NORMAL  : list ascii :=
  if EXIO_USE_COLOUR then ESC :: lit "[0m" else [].
Definition C_ERROR   : list ascii :=
  if EXIO_USE_COLOUR then ESC :: lit "[31;1m" else [].
Definition C_WARNING : list ascii :=
  if EXIO_USE_COLOUR then ESC :: lit "[33;1m" else [].
Definition C_INFO    : list ascii :=
  if EXIO_USE_COLOUR then ESC :: lit "[34;1m" else [].

Definition PREF_ERROR   : list ascii := lit "error: ".
Definition PREF_WARNING : list ascii := lit "warning: ".
Definition PREF_INFO    : list ascii := lit "info: ".

(** [vfprintf(stderr, format, ap) >= 0] *)
Definition vfprintf (fmt : format) (ap : va_list) (st : Ostream.t)
  : bool * Ostream.t :=
  match render fmt ap with
  | Some text => Ostream.write text st
  | None => (false, st)
  end.

(** The macro [MSG(pref, format)]; [&&] evaluates left to right and
    stops at the first failure. *)
Definition MSG (pref : list ascii) (fmt : format) (ap : va_list)
           (st : Ostream.t) : bool * Ostream.t :=
  let '(r1, st1) := Ostream.fputs pref st in
  if r1 then
    let '(r2, st2) := vfprintf fmt ap st1 in
    if r2 then Ostream.fputc NL st2 else (false, st2)
  else (false, st1).

Definition err  := MSG (C_ERROR ++ PREF_ERROR ++ C_NORMAL).
Definition warn := MSG (C_WARNING ++ PREF_WARNING ++ C_NORMAL).
Definition info := MSG (C_INFO ++ PREF_INFO ++ C_NORMAL).

(** The three writers, indexed by severity. *)
Inductive severity := Error | Warning | Info.

Definition writer (sev : severity) :=
  match sev with Error => err | Warning => warn | Info => info end.

Definition colour_of (sev : severity) : list ascii :=
  match sev with
  | Error => C_ERROR | Warning => C_WARNING | Info => C_INFO
  end.

Definition tag_of (sev : severity) : list ascii :=
  match sev with
  | Error => PREF_ERROR | Warning => PREF_WARNING | Info => PREF_INFO
  end.

End Writers.

End Msg.

(** ** The input stream

    [stdin] is the bytes not yet read and the condition every read meets
    once they are used up: end-of-file or a read error. *)

Module Istream.
Import Chars.

Inductive ending := AtEof | AtError.

Record t := mk { pending : list ascii; at_end : ending }.

(** [fgetc(stdin)]: the next byte, or [None] for the value [EOF]. *)
Definition fgetc (st : t) : option ascii * t :=
  match pending st with
  | c :: rest => (Some c, mk rest (at_end st))
  | [] => (None, st)
  end.

(** Reading at most [k] bytes and stopping after a newline: the bytes
    read, the bytes left, and whether the read ran into the end of the
    data (it wanted one more byte and there was none). *)
Fixpoint read_line (k : nat) (data : list ascii)
  : list ascii * list ascii * bool :=
  match k with
  | O => ([], data, false)
  | S k' =>
      match data with
      | [] => ([], [], true)
      | c :: rest =>
          if Ascii.eqb c NL then ([c], rest, false)
          else let '(got, more, hit) := read_line k' rest in
               (c :: got, more, hit)
      end
  end.

(** [fgets(buf, n, stdin)]: reads at most [n - 1] bytes, stores them
    with a terminator at the start of [buf].  The result is [None] (a
    null pointer) when the end is met before any byte, or when a read
    error occurs; [buf] is then left as it was. *)
Definition fgets (buf : list ascii) (n : nat) (st : t)
  : option (list ascii) * t :=
  let '(got, more, hit) := read_line (n - 1) (pending st) in
  let st' := mk more (at_end st) in
  match got with
  | [] => (None, st')
  | _ :: _ =>
      match hit, at_end st with
      | true, AtError => (None, st')
      | _, _ => (Some (overwrite buf (got ++ [NUL])), st')
      end
  end.

(** A whole line, newline included, however long. *)
Fixpoint take_line (data : list ascii) : list ascii * list ascii * bool :=
  match data with
  | [] => ([], [], true)
  | c :: rest =>
      if Ascii.eqb c NL then ([c], rest, false)
      else let '(got, more, hit) := take_line rest in
           (c :: got, more, hit)
  end.

(** [getline(&buf, &buf_sz, stdin)] with [buf == NULL] on entry: the
    allocated buffer (the line and its terminator) and the number of
    bytes read, or -1 when nothing could be read or the read failed. *)
Definition getline (st : t) : option (list ascii) * Z * t :=
  let '(got, more, hit) := take_line (pending st) in
  let st' := mk more (at_end st) in
  match got with
  | [] => (None, (-1)%Z, st')
  | _ :: _ =>
      match hit, at_end st with
      | true, AtError => (Some (got ++ [NUL]), (-1)%Z, st')
      | _, _ => (Some (got ++ [NUL]), Z.of_nat (length got), st')
      end
  end.

End Istream.

(** ** [confirm] *)

Module Confirm.
Import Chars.

Definition CHAR_YES : ascii := "y"%char.
Definition CHAR_NO  : ascii := "n"%char.

(** [in[k]] for the three-byte array [in]. *)
Definition at_ (buf : list ascii) (k : nat) : ascii := nth k buf NUL.

(** [while ((c = fgetc(stdin)) != '\n' && c != EOF);] *)
Fixpoint drain_data (data : list ascii) : list ascii :=
  match data with
  | [] => []
  | c :: rest => if Ascii.eqb c NL then rest else drain_data rest
  end.

Definition drain (st : Istream.t) : Istream.t :=
  Istream.mk (drain_data (Istream.pending st)) (Istream.at_end st).

(** The [for (;;)] loop; [fuel] bounds the number of iterations. *)
Fixpoint confirm_loop (fuel : nat) (prompt : list ascii) (in_ : list ascii)
         (sin : Istream.t) (serr : Ostream.t)
  : option (bool * Istream.t * Ostream.t) :=
  match fuel with
  | O => None
  | S fuel' =>
      let serr1 := snd (Ostream.fputs prompt serr) in
      match Istream.fgets in_ 3 sin with
      | (None, sin1) => Some (false, sin1, serr1)
      | (Some in1, sin1) =>
          if negb (Ascii.eqb (at_ in1 1) NL) && negb (Ascii.eqb (at_ in1 0) NL)
          then confirm_loop fuel' prompt in1 (drain sin1) serr1
          else if Ascii.eqb (at_ in1 0) CHAR_YES then Some (true, sin1, serr1)
          else if Ascii.eqb (at_ in1 0) CHAR_NO then Some (false, sin1, serr1)
          else confirm_loop fuel' prompt in1 sin1 serr1
      end
  end.

(** Every iteration that does not return reads at least one byte. *)
Definition confirm (prompt : list ascii) (sin : Istream.t) (serr : Ostream.t)
  : option (bool * Istream.t * Ostream.t) :=
  confirm_loop (S (length (Istream.pending sin))) prompt [NUL; NUL; NUL]
               sin serr.

End Confirm.

(** ** [errno] *)

Module Errno.

(** The error numbers that occur here; [E_NONE] is the value 0. *)
Inductive t :=
| E_NONE | ENOENT | EEXIST | EACCES | ENOTDIR | ENOSPC | EROFS
| ENAMETOOLONG | EBADF | ENOTTY | EIO.

Definition eqb (a b : t) : bool :=
  match a, b with
  | E_NONE, E_NONE | ENOENT, ENOENT | EEXIST, EEXIST | EACCES, EACCES
  | ENOTDIR, ENOTDIR | ENOSPC, ENOSPC | EROFS, EROFS
  | ENAMETOOLONG, ENAMETOOLONG | EBADF, EBADF | ENOTTY, ENOTTY
  | EIO, EIO => true
  | _, _ => false
  end.

End Errno.

(** ** The controlling terminal *)

Module Tty.

(** The flag words of [struct termios]. *)
Record termios := mk_termios
  { c_iflag : Z; c_oflag : Z; c_cflag : Z; c_lflag : Z }.

(** What standard input is attached to: the attributes in force when it
    is a terminal ([None] when it is not), and the outcome of the
    [tcsetattr] calls to come (head [true]: the next call fails). *)
Record t := mk { attrs : option termios; set_faults : list bool }.

(** [tcgetattr(STDIN_FILENO, &a) == 0], with the attributes read. *)
Definition tcgetattr (tty : t) : option termios := attrs tty.

(** [tcsetattr(STDIN_FILENO, TCSAFLUSH, &a) == 0] *)
Definition tcsetattr (a : termios) (tty : t) : bool * t :=
  match attrs tty with
  | None => (false, tty)
  | Some cur =>
      match set_faults tty with
      | true :: fs => (false, mk (Some cur) fs)
      | false :: fs => (true, mk (Some a) fs)
      | [] => (true, mk (Some a) [])
      end
  end.

End Tty.

(** ** [getusrln] *)

Module Getusrln.
Import Chars.

Inductive input_mode := IN_HIDE | IN_SHOW.

Definition is_hide (m : input_mode) : bool :=
  match m with IN_HIDE => true | IN_SHOW => false end.

Record world := mk_world
  { tty : Tty.t; sin : Istream.t; serr : Ostream.t }.

(** What the caller gets: the returned pointer ([None] for [NULL], else
    the bytes of the buffer) and the value stored through [input_len],
    if one was stored. *)
Record outcome := mk_outcome
  { ret : option (list ascii); len_out : option Z }.

Definition returned_null : outcome := mk_outcome None None.

Section WithEcho.

(** The [ECHO] bit of [c_lflag], from [<termios.h>]. *)
Variable ECHO : Z.

(** [new = old; new.c_lflag &= ~ECHO;] *)
Definition without_echo (old : Tty.termios) : Tty.termios :=
  Tty.mk_termios (Tty.c_iflag old) (Tty.c_oflag old) (Tty.c_cflag old)
                 (Z.land (Tty.c_lflag old) (Z.lnot ECHO)).

(** Whether the terminal echoes what is typed. *)
Definition echoing (tty : Tty.t) : bool :=
  match Tty.attrs tty with
  | Some a => negb (Z.land (Tty.c_lflag a) ECHO =? 0)%Z
  | None => false
  end.

(** From [fputs(prompt, stderr)] to the end of the function.  [old]
    is read only when [mode == IN_HIDE]. *)
Definition read_and_restore (prompt : list ascii) (has_len : bool)
           (mode : input_mode) (old : Tty.termios) (w : world)
  : outcome * world :=
  let serr1 := snd (Ostream.fputs prompt (serr w)) in
  let '(buf, input_sz, sin1) := Istream.getline (sin w) in
  let serr2 :=
    if is_hide mode || (input_sz =? -1)%Z
    then snd (Ostream.fputc NL serr1) else serr1 in
  if (input_sz =? -1)%Z then
    (* goto fail *)
    (returned_null, mk_world (tty w) sin1 serr2)
  else
    let '(restored, tty1) :=
      if is_hide mode then Tty.tcsetattr old (tty w) else (true, tty w) in
    if negb restored then
      (* goto fail *)
      (returned_null, mk_world tty1 sin1 serr2)
    else
      match buf with
      | None => (returned_null, mk_world tty1 sin1 serr2)
      | Some b =>
          if has_len
          then (mk_outcome (Some b) (Some (input_sz - 1)%Z),
                mk_world tty1 sin1 serr2)
          else (mk_outcome
                  (Some (<[Z.to_nat (input_sz - 1) := NUL]> b)) None,
                mk_world tty1 sin1 serr2)
      end.

(** [has_len] tells whether [input_len] is a non-null pointer. *)
Definition getusrln (prompt : list ascii) (has_len : bool)
           (mode : input_mode) (w : world) : outcome * world :=
  match mode with
  | IN_HIDE =>
      match Tty.tcgetattr (tty w) with
      | None => (returned_null, w)
      | Some old =>
          let '(ok, tty1) := Tty.tcsetattr (without_echo old) (tty w) in
          if ok
          then read_and_restore prompt has_len mode old
                                (mk_world tty1 (sin w) (serr w))
          else (returned_null, mk_world tty1 (sin w) (serr w))
      end
  | IN_SHOW =>
      read_and_restore prompt has_len mode
                       (Tty.mk_termios 0 0 0 0) w
  end.

End WithEcho.

End Getusrln.

(** ** [get_xdg_path] *)

Module Xdg.
Import Chars.

(** [size_t] arithmetic (64 bits wide). *)
Definition to_size_t (z : Z) : Z := (z mod 2 ^ 64)%Z.
Definition size_add (a b : Z) : Z := to_size_t (a + b).

(** [snprintf(path, n, fmt, ...)] where the conversions of [fmt] give
    [text]: at most [n - 1] characters and a terminator are stored. *)
Definition snprintf (path : list ascii) (n : Z) (text : list ascii)
  : list ascii :=
  if (n =? 0)%Z then path
  else overwrite path (take (Z.to_nat (n - 1)) text ++ [NUL]).

Section WithLimits.

(** [PATH_MAX], from [<limits.h>]. *)
Variable PATH_MAX : Z.

(** The process environment: what [getenv] finds for a name. *)
Definition getenv (env : gmap string (list ascii)) (name : string)
  : option (list ascii) := env !! name.

(** The result is the returned code, the buffer [path] and [errno]. *)
Definition get_xdg_path (path sub_dir : list ascii) (xdg_dir : string)
           (fallback_dir : list ascii) (env : gmap string (list ascii))
           (errno : Errno.t) : Z * list ascii * Errno.t :=
  match getenv env xdg_dir with
  | Some xdg =>
      if (size_add (size_add (strlen xdg) (strlen sub_dir)) 1
          >? to_size_t PATH_MAX)%Z
      then (-1, path, Errno.ENAMETOOLONG)%Z
      else (0%Z,
            snprintf path (to_size_t PATH_MAX)
                     (cstr xdg ++ [SLASH] ++ cstr sub_dir),
            errno)
  | None =>
      match getenv env "HOME" with
      | Some home =>
          if (size_add
                (size_add (size_add (strlen home) (strlen fallback_dir))
                          (strlen sub_dir)) 2
              >? to_size_t PATH_MAX)%Z
          then (-1, path, Errno.ENAMETOOLONG)%Z
          else (0%Z,
                snprintf path (to_size_t PATH_MAX)
                         (cstr home ++ [SLASH] ++ cstr fallback_dir
                            ++ [SLASH] ++ cstr sub_dir),
                errno)
      | None => (-2, path, errno)%Z
      end
  end.

End WithLimits.

End Xdg.

(** ** [mkpath] *)

Module Mkpath.
Import Chars.

Definition S_IRWXU : Z := 448.  (* 0700 *)
Definition S_IRWXG : Z := 56.   (* 0070 *)
Definition S_IRWXO : Z := 7.    (* 0007 *)

Section WithFileSystem.

(** The file system and its [mkdir(path, mode)]: the new file system
    and [None] for the result 0, or [Some e] for -1 with [errno] set
    to [e]. *)
Variable FS : Type.
Variable mkdir : list ascii -> Z -> FS -> FS * option Errno.t.

Record state := mk_state
  { path : list ascii; fs : FS; errno : Errno.t }.

(** How the [for] loop is left. *)
Inductive walk :=
| Left_loop (st : state)        (* by [break] or at the terminator *)
| Returned_false (st : state).  (* by [return false] *)

(** The state in which the loop is left. *)
Definition state_of (w : walk) : state :=
  match w with
  | Left_loop st => st
  | Returned_false st => st
  end.

(** The [for] loop with [path_iter == path + i].  Reading outside the
    buffer, or running out of [fuel], gives [None]. *)
Fixpoint walk_path (fuel : nat) (i : nat) (st : state) : option walk :=
  match fuel with
  | O => None
  | S fuel' =>
      match path st !! i with
      | None => None
      | Some c =>
          if Ascii.eqb c NUL then Some (Left_loop st)
          else if negb (Ascii.eqb c SLASH) then Some (Left_loop st)
          else
            let truncated := <[i := NUL]> (path st) in
            let '(fs1, r) :=
              mkdir (cstr truncated)
                    (Z.lor (Z.lor S_IRWXU S_IRWXG) S_IRWXO) (fs st) in
            let restored := <[i := SLASH]> truncated in
            match r with
            | None =>
                walk_path fuel' (S i) (mk_state restored fs1 (errno st))
            | Some e =>
                if negb (Errno.eqb e Errno.EEXIST)
                then Some (Returned_false (mk_state restored fs1 e))
                else walk_path fuel' (S i) (mk_state restored fs1 e)
            end
      end
  end.

(** [mkpath(path)]: the returned value and the final state. *)
Definition mkpath (buf : list ascii) (disk : FS) (e0 : Errno.t)
  : option (bool * state) :=
  match walk_path (length buf) 1 (mk_state buf disk e0) with
  | None => None
  | Some (Returned_false st) => Some (false, st)
  | Some (Left_loop st) =>
      let '(fs1, r) :=
        mkdir (cstr (path st))
              (Z.lor (Z.lor S_IRWXU S_IRWXG) S_IRWXO) (fs st) in
      match r with
      | None => Some (true, mk_state (path st) fs1 (errno st))
      | Some e =>
          if negb (Errno.eqb e Errno.EEXIST)
          then Some (false, mk_state (path st) fs1 e)
          else Some (true, mk_state (path st) fs1 e)
      end
  end.

End WithFileSystem.

End Mkpath.

(** ** A file system of directories

    The directories that exist, each as the list of its components from
    the root; the root itself always exists.  Paths are resolved from the
    root, and neither permissions nor links are represented. *)

Module DirFs.
Import Chars.

(** Cutting a path at its separators; [cur] is the component being
    read, backwards. *)
Fixpoint pieces (p : list ascii) (cur : list ascii) : list (list ascii) :=
  match p with
  | [] => [rev cur]
  | c :: rest =>
      if Ascii.eqb c SLASH then rev cur :: pieces rest []
      else pieces rest (c :: cur)
  end.

Definition nonempty (s : list ascii) : bool :=
  match s with [] => false | _ :: _ => true end.

Definition components (p : list ascii) : list string :=
  map string_of_list_ascii (List.filter nonempty (pieces p [])).

Definition is_dir (disk : gset (list string)) (cs : list string) : bool :=
  match cs with
  | [] => true
  | _ :: _ => bool_decide (cs ∈ disk)
  end.

Definition mkdir (p : list ascii) (mode : Z) (disk : gset (list string))
  : gset (list string) * option Errno.t :=
  match p with
  | [] => (disk, Some Errno.ENOENT)
  | _ :: _ =>
      let cs := components p in
      if is_dir disk cs then (disk, Some Errno.EEXIST)
      else if is_dir disk (removelast cs) then ({[ cs ]} ∪ disk, None)
      else (disk, Some Errno.ENOENT)
  end.

Definition exists_dir (disk : gset (list string)) (p : string) : bool :=
  is_dir disk (components (lit p)).

End DirFs.

(** ** [fsize] *)

Module Fsize.

(** The field of [struct stat] that is read. *)
Record stat := mk_stat { st_size : Z }.

(** An open descriptor: the bytes of its file, and the error its
    metadata query meets, if any. *)
Record open_file := mk_open_file
  { bytes : list ascii; stat_error : option Errno.t }.

(** [fstat(fd, &st)]: the metadata for the result 0, or the value of
    [errno] for -1.  A descriptor that is not open gives [EBADF]. *)
Definition fstat (open_files : gmap Z open_file) (fd : Z)
  : Errno.t + stat :=
  match open_files !! fd with
  | Some f =>
      match stat_error f with
      | Some e => inl e
      | None => inr (mk_stat (Z.of_nat (length (bytes f))))
      end
  | None => inl Errno.EBADF
  end.

Definition fsize (open_files : gmap Z open_file) (fd : Z) : Z :=
  match fstat open_files fd with
  | inr st => st_size st
  | inl _ => -1
  end.

End Fsize.

(** ** [set_handler_term] *)

Module Signals.

Inductive handler := SIG_DFL | SIG_IGN | Func (f : nat).

Definition is_ign (h : handler) : bool :=
  match h with SIG_IGN => true | _ => false end.

Record sigaction_t := mk_sigaction
  { sa_handler : handler; sa_flags : Z; sa_mask : gset Z }.

(** [memset(&act, 0, sizeof(act))] *)
Definition zeroed : sigaction_t := mk_sigaction SIG_DFL 0 ∅.

(** The numbers [<signal.h>] gives; the signals outside standard C may
    be missing. *)
Record platform := mk_platform
  { SIGINT : Z; SIGTERM : Z; SIGABRT : Z; SIGFPE : Z; SIGILL : Z;
    SIGHUP : option Z; SIGQUIT : option Z; SIGPIPE : option Z;
    SIGUSR1 : option Z; SIGUSR2 : option Z;
    SIGALRM : option Z; SIGBUS : option Z;
    SIGIO : option Z; SIGVTALRM : option Z; SIGXCPU : option Z;
    SIGXFSZ : option Z;
    SA_RESTART : Z }.

Definition if_defined (s : option Z) : list Z :=
  match s with Some n => [n] | None => [] end.

Definition term_sigs (p : platform) : list Z :=
  [SIGINT p; SIGTERM p; SIGABRT p; SIGFPE p; SIGILL p]
    ++ if_defined (SIGHUP p) ++ if_defined (SIGQUIT p)
    ++ if_defined (SIGPIPE p) ++ if_defined (SIGUSR1 p)
    ++ if_defined (SIGUSR2 p)
    ++ if_defined (SIGALRM p) ++ if_defined (SIGBUS p)
    ++ if_defined (SIGIO p) ++ if_defined (SIGVTALRM p)
    ++ if_defined (SIGXCPU p) ++ if_defined (SIGXFSZ p).

(** The dispositions of the process; a signal without an entry has the
    default one.  [sigaction(sig, NULL, &test)] reads, and
    [sigaction(sig, &act, NULL)] stores. *)
Definition current (tbl : gmap Z sigaction_t) (sig : Z) : sigaction_t :=
  default zeroed (tbl !! sig).

(** The [for] loop over [term_sigs], carrying [act]. *)
Fixpoint install (sigs : list Z) (act : sigaction_t)
         (tbl : gmap Z sigaction_t) : gmap Z sigaction_t :=
  match sigs with
  | [] => tbl
  | sig :: rest =>
      let test := current tbl sig in
      if negb (is_ign (sa_handler test)) then
        let act' := mk_sigaction (sa_handler act) (sa_flags act)
                                 ({[ sig ]} ∪ sa_mask act) in
        install rest act' (<[sig := act']> tbl)
      else install rest act tbl
  end.

Definition set_handler_term (p : platform) (func : handler)
           (tbl : gmap Z sigaction_t) : gmap Z sigaction_t :=
  install (term_sigs p) (mk_sigaction func (SA_RESTART p) ∅) tbl.

(** The numbers of Linux on x86-64. *)
Definition linux : platform :=
  (mk_platform 2 15 6 8 4
               (Some 1) (Some 3) (Some 13) (Some 10) (Some 12)
               (Some 14) (Some 7)
               (Some 29) (Some 26) (Some 24) (Some 25)
               268435456)%Z.

End Signals.

(** ** [set_handler_segv] and [reset_handler] *)

Module Handlers.

(** [set_handler_segv(func)]: [act] is zeroed, its mask filled by
    [sigfillset] (to [every], the set of all signals of the platform),
    and installed for [SIGSEGV]. *)
Definition set_handler_segv (SIGSEGV : Z) (every : gset Z)
           (func : Signals.handler) (tbl : gmap Z Signals.sigaction_t)
  : gmap Z Signals.sigaction_t :=
  <[SIGSEGV := Signals.mk_sigaction func 0 every]> tbl.

(** [reset_handler(signo)]: [sigaction] stores the default action when
    [signo] is a signal whose action can be set ([valid]); otherwise the
    call fails and nothing changes.  The result of [sigaction] is not
    looked at. *)
Definition reset_handler (valid : Z -> bool) (signo : Z)
           (tbl : gmap Z Signals.sigaction_t) : gmap Z Signals.sigaction_t :=
  if valid signo
  then <[signo := Signals.mk_sigaction Signals.SIG_DFL 0 ∅]> tbl
  else tbl.

End Handlers.

(** ** A file system that records its calls

    The state is the list of the [mkdir] calls made so far, each with its
    path and mode; [answer] decides the result of a call from its path. *)

Module TraceFs.

Definition mkdir (answer : list ascii -> option Errno.t)
           (p : list ascii) (mode : Z) (calls : list (list ascii * Z))
  : list (list ascii * Z) * option Errno.t :=
  (calls ++ [(p, mode)], answer p).

End TraceFs.

(** * Properties *)

(** ** Facts about C strings *)

Module CharsFacts.
Import Chars.

Lemma cstr_nul_free (buf : list ascii) : ~ In NUL (cstr buf).
Proof.
  induction buf as [|c buf IH]; simpl; [tauto|].
  destruct (Ascii.eqb c NUL) eqn:E; simpl; [tauto|].
  apply Ascii.eqb_neq in E. intros [H|H]; [congruence | tauto].
Qed.

Lemma cstr_app_nul (s rest : list ascii) :
  ~ In NUL s -> cstr (s ++ NUL :: rest) = s.
Proof.
  induction s as [|c s IH]; intros Hn; simpl.
  - reflexivity.
  - destruct (Ascii.eqb c NUL) eqn:E.
    + apply Ascii.eqb_eq in E. exfalso. apply Hn. left. exact E.
    + f_equal. apply IH. intros Hin. apply Hn. right. exact Hin.
Qed.

Lemma cstr_overwrite (old s : list ascii) :
  ~ In NUL s -> cstr (overwrite old (s ++ [NUL])) = s.
Proof.
  intros Hn. unfold overwrite. rewrite <- app_assoc. simpl.
  apply cstr_app_nul. exact Hn.
Qed.

Lemma eqb_ne (a b : ascii) : a <> b -> Ascii.eqb a b = false.
Proof. intros H. apply Ascii.eqb_neq. exact H. Qed.

End CharsFacts.

(** ** The diagnostic writers *)

Module MsgFacts.
Import Chars.

Section Writers.

Variable colour : bool.
Variable format : Type.
Variable va_list : Type.
Variable render : format -> va_list -> option (list ascii).

Local Abbreviation MSG := (Msg.MSG format va_list render).
Local Abbreviation writer := (Msg.writer colour format va_list render).

(** What one write call does, by the fault it meets. *)
Lemma write_cases (s : list ascii) (st : Ostream.t) :
  Ostream.write s st =
    if Ostream.fault_at 0 st
    then (false, Ostream.mk (Ostream.written st) (tl (Ostream.faults st)))
    else (true, Ostream.mk (Ostream.written st ++ s)
                           (tl (Ostream.faults st))).
Proof.
  unfold Ostream.write, Ostream.fault_at.
  destruct (Ostream.faults st) as [|[|] fs]; reflexivity.
Qed.

(** The macro succeeds exactly when the message renders and none of
    its three write calls fails, and then appends the prefix, the
    message and a newline. *)
Lemma MSG_cases (pref : list ascii) (fmt : format) (ap : va_list)
      (st : Ostream.t) :
  (fst (MSG pref fmt ap st) = true <->
     (is_Some (render fmt ap)
      /\ Ostream.fault_at 0 st = false
      /\ Ostream.fault_at 1 st = false
      /\ Ostream.fault_at 2 st = false))
  /\ (forall text, render fmt ap = Some text ->
        fst (MSG pref fmt ap st) = true ->
        Ostream.written (snd (MSG pref fmt ap st))
        = Ostream.written st ++ pref ++ text ++ [NL]).
Proof.
  unfold Msg.MSG, Msg.vfprintf, Ostream.fputs, Ostream.fputc.
  destruct st as [w fs]. rewrite !write_cases. simpl.
  unfold Ostream.fault_at at 1. simpl.
  destruct fs as [|f0 fs]; [|destruct f0]; simpl.
  - destruct (render fmt ap) as [text|] eqn:R.
    + rewrite !write_cases. simpl. split.
      * split; [intros _; repeat split; eauto | reflexivity].
      * intros t [= <-] _. rewrite <- !app_assoc. reflexivity.
    + simpl. split; [|intros t [=]].
      split; [discriminate | intros [[x [=]] _]].
  - split; [|intros t _ [=]].
    split; [discriminate | intros (_ & [=] & _)].
  - destruct (render fmt ap) as [text|] eqn:R.
    + rewrite !write_cases. simpl.
      unfold Ostream.fault_at. simpl.
      destruct fs as [|f1 fs]; [|destruct f1]; simpl.
      * split; [split; [intros _; repeat split; eauto | reflexivity]|].
        intros t [= <-] _. rewrite <- !app_assoc. reflexivity.
      * split; [|intros t _ [=]].
        split; [discriminate | intros (_ & _ & [=] & _)].
      * destruct fs as [|f2 fs]; [|destruct f2]; simpl.
        -- split; [split; [intros _; repeat split; eauto | reflexivity]|].
           intros t [= <-] _. rewrite <- !app_assoc. reflexivity.
        -- split; [|intros t _ [=]].
           split; [discriminate | intros (_ & _ & _ & [=])].
        -- split; [split; [intros _; repeat split; eauto | reflexivity]|].
           intros t [= <-] _. rewrite <- !app_assoc. reflexivity.
    + simpl. split; [|intros t [=]].
      split; [discriminate | intros [[x [=]] _]].
Qed.

(** C8: whichever of [err], [warn] and [info] is called, with colour
    support compiled in or not, the call returns true exactly when the
    message renders and each of its three writes to the diagnostic stream
    succeeds, and false exactly when one of them fails; when it returns
    true the stream has grown by the colour escape, the severity tag, the
    colour reset, the formatted message and a newline, in this order; the
    escape and the reset are present exactly when colour support is
    compiled in. *)
Theorem writer_emits_tagged_line (sev : Msg.severity) (fmt : format)
        (ap : va_list) (st : Ostream.t) :
  let r := writer sev fmt ap st in
  (fst r = true <->
     (is_Some (render fmt ap)
      /\ Ostream.fault_at 0 st = false
      /\ Ostream.fault_at 1 st = false
      /\ Ostream.fault_at 2 st = false))
  /\ (fst r = false <->
       (render fmt ap = None
        \/ Ostream.fault_at 0 st = true
        \/ Ostream.fault_at 1 st = true
        \/ Ostream.fault_at 2 st = true))
  /\ (forall text, render fmt ap = Some text -> fst r = true ->
       Ostream.written (snd r)
       = Ostream.written st ++ Msg.colour_of colour sev ++ Msg.tag_of sev
           ++ Msg.C_NORMAL colour ++ text ++ [NL])
  /\ Msg.tag_of sev
     = lit (match sev with
            | Msg.Error => "error: "
            | Msg.Warning => "warning: "
            | Msg.Info => "info: "
            end)
  /\ Msg.colour_of colour sev
     = (if colour
        then ESC :: lit (match sev with
                         | Msg.Error => "[31;1m"
                         | Msg.Warning => "[33;1m"
                         | Msg.Info => "[34;1m"
                         end)
        else [])
  /\ Msg.C_NORMAL colour = (if colour then ESC :: lit "[0m" else []).
Proof.
  intros r.
  assert (Hr : r = MSG (Msg.colour_of colour sev ++ Msg.tag_of sev
                          ++ Msg.C_NORMAL colour) fmt ap st).
  { subst r. destruct sev; reflexivity. }
  destruct (MSG_cases (Msg.colour_of colour sev ++ Msg.tag_of sev
                         ++ Msg.C_NORMAL colour) fmt ap st) as [Hiff Hout].
  rewrite <- Hr in Hiff, Hout.
  split; [exact Hiff|].
  split.
  - split.
    + intros Hf.
      destruct (render fmt ap) as [text|] eqn:R; [|left; reflexivity].
      destruct (Ostream.fault_at 0 st) eqn:F0; [right; left; reflexivity|].
      destruct (Ostream.fault_at 1 st) eqn:F1;
        [right; right; left; reflexivity|].
      destruct (Ostream.fault_at 2 st) eqn:F2;
        [right; right; right; reflexivity|].
      assert (Ht : fst r = true) by (apply Hiff; repeat split; eauto).
      congruence.
    + intros Hbad. destruct (fst r) eqn:Hf; [|reflexivity].
      destruct Hiff as [Hiff _]. destruct (Hiff eq_refl) as (R & F0 & F1 & F2).
      destruct Hbad as [N|[B|[B|B]]]; try congruence.
      rewrite N in R. destruct R as [x [=]].
  - split.
    + intros text R Ht. rewrite (Hout text R Ht).
      rewrite <- !app_assoc. reflexivity.
    + destruct sev, colour; repeat split; reflexivity.
Qed.

End Writers.

End MsgFacts.

(** ** [confirm] *)

Module ConfirmFacts.
Import Chars.

Local Arguments Ascii.eqb : simpl never.

(** What [fgets(in, 3, stdin)] does, by the bytes that are pending. *)

Lemma fgets3_nil buf e :
  Istream.fgets buf 3 (Istream.mk [] e) = (None, Istream.mk [] e).
Proof. reflexivity. Qed.

Lemma fgets3_nl buf rest e :
  Istream.fgets buf 3 (Istream.mk (NL :: rest) e)
  = (Some (overwrite buf [NL; NUL]), Istream.mk rest e).
Proof. reflexivity. Qed.

Lemma fgets3_one_eof buf c :
  c <> NL ->
  Istream.fgets buf 3 (Istream.mk [c] Istream.AtEof)
  = (Some (overwrite buf [c; NUL]), Istream.mk [] Istream.AtEof).
Proof.
  intros Hc. unfold Istream.fgets. simpl. rewrite (CharsFacts.eqb_ne _ _ Hc). reflexivity.
Qed.

Lemma fgets3_one_err buf c :
  c <> NL ->
  Istream.fgets buf 3 (Istream.mk [c] Istream.AtError)
  = (None, Istream.mk [] Istream.AtError).
Proof.
  intros Hc. unfold Istream.fgets. simpl. rewrite (CharsFacts.eqb_ne _ _ Hc). reflexivity.
Qed.

Lemma fgets3_two_nl buf c rest e :
  c <> NL ->
  Istream.fgets buf 3 (Istream.mk (c :: NL :: rest) e)
  = (Some (overwrite buf [c; NL; NUL]), Istream.mk rest e).
Proof.
  intros Hc. unfold Istream.fgets. simpl. rewrite (CharsFacts.eqb_ne _ _ Hc).
  destruct e; reflexivity.
Qed.

Lemma fgets3_two buf c d rest e :
  c <> NL -> d <> NL ->
  Istream.fgets buf 3 (Istream.mk (c :: d :: rest) e)
  = (Some (overwrite buf [c; d; NUL]), Istream.mk rest e).
Proof.
  intros Hc Hd. unfold Istream.fgets. simpl.
  rewrite (CharsFacts.eqb_ne _ _ Hc), (CharsFacts.eqb_ne _ _ Hd). destruct e; reflexivity.
Qed.

(** The drain loop, one [fgetc] at a time. *)
Lemma drain_step (st : Istream.t) :
  Confirm.drain st
  = match Istream.fgetc st with
    | (Some c, st') => if Ascii.eqb c NL then st' else Confirm.drain st'
    | (None, st') => st'
    end.
Proof.
  destruct st as [[|c data] e]; unfold Confirm.drain, Istream.fgetc; simpl.
  - reflexivity.
  - destruct (Ascii.eqb c NL); reflexivity.
Qed.

Lemma drain_data_length (data : list ascii) :
  length (Confirm.drain_data data) <= length data.
Proof.
  induction data as [|c data IH]; simpl; [lia|].
  destruct (Ascii.eqb c NL); lia.
Qed.

Lemma drain_data_line (line rest : list ascii) :
  ~ In NL line -> Confirm.drain_data (line ++ NL :: rest) = rest.
Proof.
  induction line as [|c line IH]; intros Hn; simpl.
  - reflexivity.
  - rewrite CharsFacts.eqb_ne by (intros ->; apply Hn; left; reflexivity).
    apply IH. intros H. apply Hn. right. exact H.
Qed.

Lemma drain_data_unterminated (line : list ascii) :
  ~ In NL line -> Confirm.drain_data line = [].
Proof.
  induction line as [|c line IH]; intros Hn; simpl; [reflexivity|].
  rewrite CharsFacts.eqb_ne by (intros ->; apply Hn; left; reflexivity).
  apply IH. intros H. apply Hn. right. exact H.
Qed.

Lemma confirm_loop_S fuel prompt in_ sin serr :
  Confirm.confirm_loop (S fuel) prompt in_ sin serr =
    let serr1 := snd (Ostream.fputs prompt serr) in
    match Istream.fgets in_ 3 sin with
    | (None, sin1) => Some (false, sin1, serr1)
    | (Some in1, sin1) =>
        if negb (Ascii.eqb (Confirm.at_ in1 1) NL)
           && negb (Ascii.eqb (Confirm.at_ in1 0) NL)
        then Confirm.confirm_loop fuel prompt in1 (Confirm.drain sin1) serr1
        else if Ascii.eqb (Confirm.at_ in1 0) Confirm.CHAR_YES
             then Some (true, sin1, serr1)
             else if Ascii.eqb (Confirm.at_ in1 0) Confirm.CHAR_NO
                  then Some (false, sin1, serr1)
                  else Confirm.confirm_loop fuel prompt in1 sin1 serr1
    end.
Proof. reflexivity. Qed.

(** One iteration, by the shape of the pending line. *)

Lemma loop_at_end fuel prompt in_ e serr :
  Confirm.confirm_loop (S fuel) prompt in_ (Istream.mk [] e) serr
  = Some (false, Istream.mk [] e, snd (Ostream.fputs prompt serr)).
Proof. reflexivity. Qed.

Lemma loop_empty_line fuel prompt in_ rest e serr :
  Confirm.confirm_loop (S fuel) prompt in_ (Istream.mk (NL :: rest) e) serr
  = Confirm.confirm_loop fuel prompt (overwrite in_ [NL; NUL])
                         (Istream.mk rest e)
                         (snd (Ostream.fputs prompt serr)).
Proof. reflexivity. Qed.

Lemma loop_lone_byte_eof fuel prompt in_ c serr :
  c <> NL ->
  Confirm.confirm_loop (S fuel) prompt in_
                       (Istream.mk [c] Istream.AtEof) serr
  = Confirm.confirm_loop fuel prompt (overwrite in_ [c; NUL])
                         (Istream.mk [] Istream.AtEof)
                         (snd (Ostream.fputs prompt serr)).
Proof.
  intros Hc. rewrite confirm_loop_S, fgets3_one_eof by exact Hc.
  cbv zeta. unfold Confirm.at_, overwrite. simpl.
  rewrite (CharsFacts.eqb_ne c NL Hc). reflexivity.
Qed.

Lemma loop_lone_byte_err fuel prompt in_ c serr :
  c <> NL ->
  Confirm.confirm_loop (S fuel) prompt in_
                       (Istream.mk [c] Istream.AtError) serr
  = Some (false, Istream.mk [] Istream.AtError,
          snd (Ostream.fputs prompt serr)).
Proof.
  intros Hc. rewrite confirm_loop_S, fgets3_one_err by exact Hc. reflexivity.
Qed.

Lemma loop_one_byte_line fuel prompt in_ c rest e serr :
  c <> NL ->
  Confirm.confirm_loop (S fuel) prompt in_
                       (Istream.mk (c :: NL :: rest) e) serr
  = if Ascii.eqb c Confirm.CHAR_YES
    then Some (true, Istream.mk rest e, snd (Ostream.fputs prompt serr))
    else if Ascii.eqb c Confirm.CHAR_NO
         then Some (false, Istream.mk rest e, snd (Ostream.fputs prompt serr))
         else Confirm.confirm_loop fuel prompt (overwrite in_ [c; NL; NUL])
                                   (Istream.mk rest e)
                                   (snd (Ostream.fputs prompt serr)).
Proof.
  intros Hc. rewrite confirm_loop_S, fgets3_two_nl by exact Hc.
  cbv zeta. unfold Confirm.at_, overwrite. simpl.
  reflexivity.
Qed.

Lemma loop_long_line fuel prompt in_ c d rest e serr :
  c <> NL -> d <> NL ->
  Confirm.confirm_loop (S fuel) prompt in_
                       (Istream.mk (c :: d :: rest) e) serr
  = Confirm.confirm_loop fuel prompt (overwrite in_ [c; d; NUL])
                         (Istream.mk (Confirm.drain_data rest) e)
                         (snd (Ostream.fputs prompt serr)).
Proof.
  intros Hc Hd. rewrite confirm_loop_S, fgets3_two by assumption.
  cbv zeta. unfold Confirm.at_, overwrite. simpl.
  rewrite (CharsFacts.eqb_ne c NL Hc), (CharsFacts.eqb_ne d NL Hd). reflexivity.
Qed.

(** With fuel beyond the number of pending bytes the loop returns, and
    neither the exact fuel nor the previous contents of [in] matter. *)
Lemma confirm_loop_enough (n : nat) :
  forall pend fuel fuel' prompt in_ in_' e serr,
    length pend <= n -> length pend < fuel -> length pend < fuel' ->
    Confirm.confirm_loop fuel prompt in_ (Istream.mk pend e) serr
    = Confirm.confirm_loop fuel' prompt in_' (Istream.mk pend e) serr
    /\ is_Some (Confirm.confirm_loop fuel prompt in_ (Istream.mk pend e) serr).
Proof.
  induction n as [|n IH]; intros pend fuel fuel' prompt in_ in_' e serr Hn Hf Hf'.
  - destruct pend; [|simpl in Hn; lia].
    destruct fuel; [lia|]. destruct fuel'; [lia|].
    rewrite !loop_at_end. split; [reflexivity | eauto].
  - destruct fuel as [|fuel]; [lia|]. destruct fuel' as [|fuel']; [lia|].
    destruct pend as [|c pend].
    { rewrite !loop_at_end. split; [reflexivity | eauto]. }
    simpl in Hn, Hf, Hf'.
    destruct (ascii_dec c NL) as [->|Hc].
    { rewrite !loop_empty_line. apply IH; lia. }
    destruct pend as [|d pend].
    { destruct e.
      - rewrite !loop_lone_byte_eof by exact Hc. apply IH; simpl; lia.
      - rewrite !loop_lone_byte_err by exact Hc. split; [reflexivity|eauto]. }
    simpl in Hn, Hf, Hf'.
    destruct (ascii_dec d NL) as [->|Hd].
    { rewrite !loop_one_byte_line by exact Hc.
      destruct (Ascii.eqb c Confirm.CHAR_YES); [split; [reflexivity|eauto]|].
      destruct (Ascii.eqb c Confirm.CHAR_NO); [split; [reflexivity|eauto]|].
      apply IH; lia. }
    rewrite !loop_long_line by assumption.
    pose proof (drain_data_length pend). apply IH; lia.
Qed.

Lemma confirm_total prompt sin serr :
  is_Some (Confirm.confirm prompt sin serr).
Proof.
  destruct sin as [pend e]. unfold Confirm.confirm.
  cbn [Istream.pending].
  refine (proj2 (confirm_loop_enough (length pend) pend _ (S (length pend))
                                     prompt _ [] e serr _ _ _)); lia.
Qed.

Lemma confirm_loop_is_confirm fuel prompt in_ pend e serr :
  length pend < fuel ->
  Confirm.confirm_loop fuel prompt in_ (Istream.mk pend e) serr
  = Confirm.confirm prompt (Istream.mk pend e) serr.
Proof.
  intros Hf. unfold Confirm.confirm. cbn [Istream.pending].
  apply (confirm_loop_enough (length pend)); lia.
Qed.

(** C7 (as amended): [confirm] writes the prompt and reads a line.  The
    line [y] gives true and the line [n] gives false; any other line is
    consumed up to and including its terminator and the call goes on as a
    fresh call on the rest of the input, with the prompt written once more.
    Such a call always returns.  When the input is at its end before any
    byte is read, false is returned after that single prompt.  A final
    line without terminator followed by end-of-file is rejected like any
    other line: the prompt is written a second time and then false is
    returned. *)
Theorem confirm_reads_line_by_line (prompt line rest : list ascii)
        (e : Istream.ending) (serr : Ostream.t) :
  ~ In NL line ->
  let once := snd (Ostream.fputs prompt serr) in
  let twice := snd (Ostream.fputs prompt once) in
  Confirm.confirm prompt (Istream.mk (line ++ NL :: rest) e) serr
  = (if decide (line = [Confirm.CHAR_YES])
     then Some (true, Istream.mk rest e, once)
     else if decide (line = [Confirm.CHAR_NO])
          then Some (false, Istream.mk rest e, once)
          else Confirm.confirm prompt (Istream.mk rest e) once)
  /\ is_Some (Confirm.confirm prompt (Istream.mk (line ++ NL :: rest) e) serr)
  /\ Confirm.confirm prompt (Istream.mk [] e) serr
     = Some (false, Istream.mk [] e, once)
  /\ (line <> [] ->
      Confirm.confirm prompt (Istream.mk line Istream.AtEof) serr
      = Some (false, Istream.mk [] Istream.AtEof, twice)).
Proof.
  intros Hn once twice.
  split; [|split; [apply confirm_total|split; [reflexivity|]]].
  - unfold Confirm.confirm at 1. cbn [Istream.pending].
    destruct line as [|c line].
    + simpl app. rewrite loop_empty_line.
      destruct (decide ([] = [Confirm.CHAR_YES])) as [[=]|_].
      destruct (decide ([] = [Confirm.CHAR_NO])) as [[=]|_].
      apply confirm_loop_is_confirm. simpl. lia.
    + assert (Hc : c <> NL) by (intros ->; apply Hn; left; reflexivity).
      assert (Hl : ~ In NL line) by (intros H; apply Hn; right; exact H).
      destruct line as [|d line].
      * simpl app. rewrite loop_one_byte_line by exact Hc.
        destruct (decide ([c] = [Confirm.CHAR_YES])) as [[= ->]|Hy].
        { reflexivity. }
        rewrite CharsFacts.eqb_ne by congruence.
        destruct (decide ([c] = [Confirm.CHAR_NO])) as [[= ->]|Hno].
        { reflexivity. }
        rewrite CharsFacts.eqb_ne by congruence.
        apply confirm_loop_is_confirm. simpl. lia.
      * assert (Hd : d <> NL) by (intros ->; apply Hl; left; reflexivity).
        assert (Hl' : ~ In NL line) by (intros H; apply Hl; right; exact H).
        simpl app. simpl length. rewrite loop_long_line by assumption.
        rewrite drain_data_line by exact Hl'.
        destruct (decide (c :: d :: line = [Confirm.CHAR_YES])) as [[=]|_].
        destruct (decide (c :: d :: line = [Confirm.CHAR_NO])) as [[=]|_].
        apply confirm_loop_is_confirm.
        rewrite length_app. simpl. lia.
  - intros Hne. unfold Confirm.confirm. cbn [Istream.pending].
    destruct line as [|c line]; [congruence|].
    assert (Hc : c <> NL) by (intros ->; apply Hn; left; reflexivity).
    assert (Hl : ~ In NL line) by (intros H; apply Hn; right; exact H).
    destruct line as [|d line].
    + simpl length. rewrite loop_lone_byte_eof by exact Hc.
      rewrite loop_at_end. reflexivity.
    + assert (Hd : d <> NL) by (intros ->; apply Hl; left; reflexivity).
      assert (Hl' : ~ In NL line) by (intros H; apply Hl; right; exact H).
      simpl length. rewrite loop_long_line by assumption.
      rewrite drain_data_unterminated by exact Hl'.
      rewrite loop_at_end. reflexivity.
Qed.

(** The line [yes] is rejected and the answer comes from the next line. *)
Lemma confirm_reads_line_by_line_witness :
  ~ In NL (lit "yes")
  /\ Confirm.confirm (lit "? ")
       (Istream.mk (lit "yes" ++ NL :: lit "y" ++ [NL]) Istream.AtEof)
       (Ostream.healthy [])
     = Confirm.confirm (lit "? ")
         (Istream.mk (lit "y" ++ [NL]) Istream.AtEof)
         (Ostream.healthy (lit "? ")).
Proof.
  assert (H : ~ In NL (lit "yes")).
  { cbv. intros [H|[H|[H|[]]]]; discriminate H. }
  split; [exact H|].
  exact (proj1 (confirm_reads_line_by_line
                  (lit "? ") (lit "yes") (lit "y" ++ [NL]) Istream.AtEof
                  (Ostream.healthy []) H)).
Defined.

(** C7 (as stated) fails: with the single byte [y] and then end-of-file,
    the read meets the end of the input, yet the prompt is written a
    second time before false is returned. *)
Lemma confirm_eof_in_line_prompts_again :
  exists sin' serr',
    Confirm.confirm (lit "? ") (Istream.mk (lit "y") Istream.AtEof)
                    (Ostream.healthy [])
    = Some (false, sin', serr')
    /\ Ostream.written serr' = lit "? " ++ lit "? "
    /\ Ostream.written serr' <> lit "? ".
Proof.
  eexists. eexists. split; [vm_compute; reflexivity|].
  split; [reflexivity | discriminate].
Qed.

End ConfirmFacts.

(** ** [getusrln] *)

Module GetusrlnFacts.
Import Chars.

Local Arguments Ascii.eqb : simpl never.

Lemma take_line_unterminated (line : list ascii) :
  ~ In NL line -> Istream.take_line line = (line, [], true).
Proof.
  induction line as [|c line IH]; intros Hn; simpl; [reflexivity|].
  rewrite CharsFacts.eqb_ne by (intros ->; apply Hn; left; reflexivity).
  rewrite IH by (intros H; apply Hn; right; exact H). reflexivity.
Qed.

Lemma getline_unterminated (line : list ascii) :
  line <> [] -> ~ In NL line ->
  Istream.getline (Istream.mk line Istream.AtEof)
  = (Some (line ++ [NUL]), Z.of_nat (length line),
     Istream.mk [] Istream.AtEof).
Proof.
  intros Hne Hn. unfold Istream.getline. cbn [Istream.pending Istream.at_end].
  rewrite take_line_unterminated by exact Hn.
  destruct line; [congruence | reflexivity].
Qed.

Lemma getline_at_end (e : Istream.ending) :
  Istream.getline (Istream.mk [] e) = (None, (-1)%Z, Istream.mk [] e).
Proof. reflexivity. Qed.

Lemma insert_last_byte (line : list ascii) :
  line <> [] ->
  <[Z.to_nat (Z.of_nat (length line) - 1) := NUL]> (line ++ [NUL])
  = removelast line ++ [NUL; NUL].
Proof.
  intros Hne. destruct (exists_last Hne) as (l' & x & ->).
  rewrite removelast_last, length_app. simpl length.
  replace (Z.to_nat (Z.of_nat (length l' + 1) - 1)) with (length l' + 0)%nat
    by lia.
  rewrite <- app_assoc. rewrite insert_app_r. reflexivity.
Qed.

Section WithEcho.

Variable ECHO : Z.

Local Abbreviation getusrln := (Getusrln.getusrln ECHO).

(** The tail of the function on a final line without terminator. *)
Lemma read_and_restore_unterminated prompt has_len mode old w line :
  line <> [] -> ~ In NL line ->
  Getusrln.sin w = Istream.mk line Istream.AtEof ->
  forall out w' buf,
    Getusrln.read_and_restore prompt has_len mode old w = (out, w') ->
    Getusrln.ret out = Some buf ->
    if has_len
    then Getusrln.len_out out = Some (Z.of_nat (length line) - 1)%Z
         /\ buf = line ++ [NUL]
    else Getusrln.len_out out = None
         /\ buf = removelast line ++ [NUL; NUL].
Proof.
  intros Hne Hn Hsin out w' buf.
  unfold Getusrln.read_and_restore. rewrite Hsin.
  rewrite getline_unterminated by assumption.
  assert (Hsz : (Z.of_nat (length line) =? -1)%Z = false)
    by (apply Z.eqb_neq; lia).
  rewrite Hsz.
  destruct (if Getusrln.is_hide mode
            then Tty.tcsetattr old (Getusrln.tty w)
            else (true, Getusrln.tty w)) as [restored tty1].
  destruct restored; simpl negb; cbv iota.
  - destruct has_len; intros [= <- <-]; simpl; intros [= <-].
    + split; reflexivity.
    + split; [reflexivity | apply insert_last_byte; exact Hne].
  - intros [= <- <-]. simpl. discriminate.
Qed.

(** C10: when the last line of the input is not empty and ends at
    end-of-file without a terminator, a call of [getusrln] that succeeds
    still drops one byte: with a length slot the stored length is the
    number of bytes read minus one (the buffer holds the whole line); with
    no length slot the last byte of the line is overwritten by a NUL. *)
Theorem getusrln_unterminated_line_drops_last_byte
        (prompt : list ascii) (has_len : bool) (mode : Getusrln.input_mode)
        (w w' : Getusrln.world) (line buf : list ascii)
        (out : Getusrln.outcome) :
  line <> [] -> ~ In NL line ->
  Getusrln.sin w = Istream.mk line Istream.AtEof ->
  getusrln prompt has_len mode w = (out, w') ->
  Getusrln.ret out = Some buf ->
  if has_len
  then Getusrln.len_out out = Some (Z.of_nat (length line) - 1)%Z
       /\ buf = line ++ [NUL]
  else Getusrln.len_out out = None
       /\ buf = removelast line ++ [NUL; NUL].
Proof.
  intros Hne Hn Hsin. unfold Getusrln.getusrln. destruct mode.
  - unfold Tty.tcgetattr.
    destruct (Tty.attrs (Getusrln.tty w)) as [old|].
    + destruct (Tty.tcsetattr (Getusrln.without_echo ECHO old)
                              (Getusrln.tty w)) as [ok tty1].
      destruct ok.
      * intros Hrun Hret.
        eapply read_and_restore_unterminated;
          [exact Hne | exact Hn | | exact Hrun | exact Hret].
        exact Hsin.
      * intros [= <- <-]. simpl. discriminate.
    + intros [= <- <-]. simpl. discriminate.
  - intros Hrun Hret. eapply read_and_restore_unterminated; eauto.
Qed.

(** When the read fails after echo was switched off, the function
    returns without another [tcsetattr]: the terminal keeps the
    attributes without [ECHO]. *)
Lemma getusrln_read_failure_skips_restore
      (prompt : list ascii) (has_len : bool) (w : Getusrln.world)
      (old : Tty.termios) (e : Istream.ending) :
  Tty.attrs (Getusrln.tty w) = Some old ->
  hd false (Tty.set_faults (Getusrln.tty w)) = false ->
  Getusrln.sin w = Istream.mk [] e ->
  let r := getusrln prompt has_len Getusrln.IN_HIDE w in
  Getusrln.ret (fst r) = None
  /\ Tty.attrs (Getusrln.tty (snd r))
     = Some (Getusrln.without_echo ECHO old).
Proof.
  intros Hattr Hfault Hsin. unfold Getusrln.getusrln, Tty.tcgetattr.
  rewrite Hattr. unfold Tty.tcsetattr. rewrite Hattr.
  destruct (Tty.set_faults (Getusrln.tty w)) as [|f fs];
    [|simpl in Hfault; subst f];
    unfold Getusrln.read_and_restore; cbn [Getusrln.sin Getusrln.serr];
    rewrite Hsin, getline_at_end; simpl; split; reflexivity.
Qed.

(** On the path that returns a buffer the saved attributes are back in
    force. *)
Lemma getusrln_success_restores
      (prompt : list ascii) (has_len : bool) (w w' : Getusrln.world)
      (out : Getusrln.outcome) (buf : list ascii) :
  getusrln prompt has_len Getusrln.IN_HIDE w = (out, w') ->
  Getusrln.ret out = Some buf ->
  Tty.attrs (Getusrln.tty w') = Tty.attrs (Getusrln.tty w).
Proof.
  unfold Getusrln.getusrln, Tty.tcgetattr.
  destruct (Tty.attrs (Getusrln.tty w)) as [old|] eqn:Hattr;
    [|intros [= <- <-]; discriminate].
  unfold Tty.tcsetattr at 1. rewrite Hattr.
  unfold Getusrln.read_and_restore. cbn [Getusrln.sin Getusrln.serr Getusrln.tty].
  destruct (Istream.getline (Getusrln.sin w)) as [[b sz] sin1].
  destruct (Tty.set_faults (Getusrln.tty w)) as [|[|] fs];
    try (intros [= <- <-]; discriminate);
    (destruct (sz =? -1)%Z; [intros [= <- <-]; discriminate|]);
    unfold Tty.tcsetattr; cbn [Tty.attrs Tty.set_faults Getusrln.is_hide];
    try (destruct fs as [|[|] fs]); simpl negb; cbv iota;
    try (intros [= <- <-]; discriminate);
    destruct b; try (intros [= <- <-]; discriminate);
    destruct has_len; intros [= <- <-]; reflexivity.
Qed.

End WithEcho.

(** A final line [abc] without terminator, read with echo shown and no
    length slot: the buffer comes back as [ab]. *)
Lemma getusrln_unterminated_line_drops_last_byte_witness :
  lit "abc" <> [] /\ ~ In NL (lit "abc")
  /\ Getusrln.ret
       (fst (Getusrln.getusrln 8 (lit "> ") false Getusrln.IN_SHOW
               (Getusrln.mk_world (Tty.mk None [])
                  (Istream.mk (lit "abc") Istream.AtEof)
                  (Ostream.healthy []))))
     = Some (removelast (lit "abc") ++ [NUL; NUL]).
Proof.
  assert (Hne : lit "abc" <> []) by discriminate.
  assert (Hn : ~ In NL (lit "abc")).
  { cbv. intros [H|[H|[H|[]]]]; discriminate H. }
  split; [exact Hne|]. split; [exact Hn|].
  set (w := Getusrln.mk_world (Tty.mk None [])
              (Istream.mk (lit "abc") Istream.AtEof) (Ostream.healthy [])).
  destruct (Getusrln.getusrln 8 (lit "> ") false Getusrln.IN_SHOW w)
    as [out w'] eqn:Hrun.
  destruct (Getusrln.ret out) as [buf|] eqn:Hret.
  - destruct (getusrln_unterminated_line_drops_last_byte
                8 (lit "> ") false Getusrln.IN_SHOW w w' (lit "abc") buf out
                Hne Hn eq_refl Hrun Hret) as [_ ->].
    simpl. exact Hret.
  - vm_compute in Hrun. injection Hrun as <- <-. discriminate Hret.
Defined.

(** C1 fails on the read-failure path: standard input is a terminal
    that echoes, the two attribute calls succeed, and the input is at
    end-of-file.  The call returns [NULL] and the terminal is left with
    [ECHO] cleared; the saved attributes are not put back. *)
Theorem getusrln_eof_leaves_echo_off :
  let saved := Tty.mk_termios 0 0 0 10 in
  let w := Getusrln.mk_world (Tty.mk (Some saved) [])
             (Istream.mk [] Istream.AtEof) (Ostream.healthy []) in
  let r := Getusrln.getusrln 8 (lit "Password: ") true Getusrln.IN_HIDE w in
  Getusrln.echoing 8 (Getusrln.tty w) = true
  /\ Getusrln.ret (fst r) = None
  /\ Getusrln.echoing 8 (Getusrln.tty (snd r)) = false
  /\ Tty.attrs (Getusrln.tty (snd r)) = Some (Tty.mk_termios 0 0 0 2)
  /\ Tty.attrs (Getusrln.tty (snd r)) <> Some saved.
Proof.
  cbv zeta. vm_compute. repeat split; discriminate.
Qed.

End GetusrlnFacts.

(** ** [get_xdg_path] *)

Module XdgFacts.
Import Chars.

Lemma slash_not_nul : SLASH <> NUL.
Proof. discriminate. Qed.

(** The text of ["%s/%s"] holds no NUL. *)
Lemma joined_nul_free (a b : list ascii) :
  ~ In NUL (cstr a ++ [SLASH] ++ cstr b).
Proof.
  rewrite !in_app_iff. simpl.
  pose proof (CharsFacts.cstr_nul_free a).
  pose proof (CharsFacts.cstr_nul_free b).
  pose proof slash_not_nul. tauto.
Qed.

Lemma joined3_nul_free (a b c : list ascii) :
  ~ In NUL (cstr a ++ [SLASH] ++ cstr b ++ [SLASH] ++ cstr c).
Proof.
  rewrite !in_app_iff. simpl.
  pose proof (CharsFacts.cstr_nul_free a).
  pose proof (CharsFacts.cstr_nul_free b).
  pose proof (CharsFacts.cstr_nul_free c).
  pose proof slash_not_nul. tauto.
Qed.

Lemma to_size_t_small (z : Z) : (0 <= z < 2 ^ 64)%Z -> Xdg.to_size_t z = z.
Proof. intros H. unfold Xdg.to_size_t. apply Z.mod_small. exact H. Qed.

(** A text shorter than the size given to [snprintf] is stored whole. *)
Lemma snprintf_fits (path text : list ascii) (n : Z) :
  ~ In NUL text -> (Z.of_nat (length text) < n)%Z ->
  cstr (Xdg.snprintf path n text) = text.
Proof.
  intros Hn Hlen. unfold Xdg.snprintf.
  destruct (n =? 0)%Z eqn:E; [apply Z.eqb_eq in E; lia|].
  rewrite take_ge by lia. apply CharsFacts.cstr_overwrite. exact Hn.
Qed.

(** A text exactly as long as the size loses its last character. *)
Lemma snprintf_cuts (path text : list ascii) (n : Z) :
  ~ In NUL text -> (0 < n)%Z -> Z.of_nat (length text) = n ->
  cstr (Xdg.snprintf path n text) = removelast text.
Proof.
  intros Hn Hpos Hlen. unfold Xdg.snprintf.
  destruct (n =? 0)%Z eqn:E; [apply Z.eqb_eq in E; lia|].
  replace (Z.to_nat (n - 1)) with (pred (length text)) by lia.
  change (take (pred (length text)) text)
    with (firstn (pred (length text)) text).
  rewrite <- removelast_firstn_len.
  apply CharsFacts.cstr_overwrite.
  intros H. apply Hn.
  destruct text as [|c text]; [exact H|].
  rewrite (app_removelast_last c (l := c :: text)) by discriminate.
  apply in_or_app. left. exact H.
Qed.

Lemma length_joined (a b : list ascii) :
  Z.of_nat (length (cstr a ++ [SLASH] ++ cstr b))
  = (strlen a + strlen b + 1)%Z.
Proof. unfold strlen. rewrite !length_app. simpl. lia. Qed.

Lemma length_joined3 (a b c : list ascii) :
  Z.of_nat (length (cstr a ++ [SLASH] ++ cstr b ++ [SLASH] ++ cstr c))
  = (strlen a + strlen b + strlen c + 2)%Z.
Proof. unfold strlen. rewrite !length_app. simpl. lia. Qed.

Lemma strlen_nonneg (a : list ascii) : (0 <= strlen a)%Z.
Proof. unfold strlen. lia. Qed.

(** The length test of the first branch, without wrap-around. *)
Lemma size_check2 (a b : list ascii) :
  (strlen a + strlen b + 1 < 2 ^ 64)%Z ->
  Xdg.size_add (Xdg.size_add (strlen a) (strlen b)) 1
  = (strlen a + strlen b + 1)%Z.
Proof.
  intros H. pose proof (strlen_nonneg a). pose proof (strlen_nonneg b).
  unfold Xdg.size_add. rewrite (to_size_t_small (strlen a + strlen b)) by lia.
  apply to_size_t_small. lia.
Qed.

(** The length test of the second branch, without wrap-around. *)
Lemma size_check3 (a b c : list ascii) :
  (strlen a + strlen b + strlen c + 2 < 2 ^ 64)%Z ->
  Xdg.size_add (Xdg.size_add (Xdg.size_add (strlen a) (strlen b)) (strlen c)) 2
  = (strlen a + strlen b + strlen c + 2)%Z.
Proof.
  intros H. pose proof (strlen_nonneg a). pose proof (strlen_nonneg b).
  pose proof (strlen_nonneg c).
  unfold Xdg.size_add. rewrite (to_size_t_small (strlen a + strlen b)) by lia.
  rewrite (to_size_t_small (strlen a + strlen b + strlen c)) by lia.
  apply to_size_t_small. lia.
Qed.

(** C4 (as amended): [get_xdg_path] uses the variable named by [xdg_dir]
    whenever it is set, an empty value included, and composes
    value/sub_dir; when that variable is not set and HOME is, it composes
    home/fallback_dir/sub_dir (each when the composed text is shorter than
    [PATH_MAX]); when neither is set it returns -2 and leaves [errno] and
    the buffer as they were. *)
Theorem get_xdg_path_selects_base
        (PATH_MAX : Z) (path sub_dir : list ascii) (xdg_dir : string)
        (fallback_dir : list ascii) (env : gmap string (list ascii))
        (errno : Errno.t) :
  (0 < PATH_MAX < 2 ^ 64)%Z ->
  let r := Xdg.get_xdg_path PATH_MAX path sub_dir xdg_dir fallback_dir
                            env errno in
  match env !! xdg_dir, env !! "HOME"%string with
  | Some xdg, _ =>
      let text := cstr xdg ++ [SLASH] ++ cstr sub_dir in
      (Z.of_nat (length text) < PATH_MAX)%Z ->
      r.1.1 = 0%Z /\ cstr r.1.2 = text /\ r.2 = errno
  | None, Some home =>
      let text := cstr home ++ [SLASH] ++ cstr fallback_dir
                    ++ [SLASH] ++ cstr sub_dir in
      (Z.of_nat (length text) < PATH_MAX)%Z ->
      r.1.1 = 0%Z /\ cstr r.1.2 = text /\ r.2 = errno
  | None, None => r = ((-2)%Z, path, errno)
  end.
Proof.
  intros HP r. subst r. unfold Xdg.get_xdg_path, Xdg.getenv.
  destruct (env !! xdg_dir) as [xdg|].
  - intros Hlen. rewrite length_joined in Hlen.
    rewrite size_check2 by lia. rewrite (to_size_t_small PATH_MAX) by lia.
    destruct (Z.gtb_spec (strlen xdg + strlen sub_dir + 1) PATH_MAX); [lia|].
    cbn [fst snd]. repeat split.
    apply snprintf_fits; [apply joined_nul_free | rewrite length_joined; lia].
  - destruct (env !! "HOME"%string) as [home|]; [|reflexivity].
    intros Hlen. rewrite length_joined3 in Hlen.
    rewrite size_check3 by lia. rewrite (to_size_t_small PATH_MAX) by lia.
    destruct (Z.gtb_spec (strlen home + strlen fallback_dir + strlen sub_dir + 2)
                         PATH_MAX); [lia|].
    cbn [fst snd]. repeat split.
    apply snprintf_fits; [apply joined3_nul_free | rewrite length_joined3; lia].
Qed.

(** With the variable set to [/a/b] the result is [/a/b/app]. *)
Lemma get_xdg_path_selects_base_witness :
  (0 < 4096 < 2 ^ 64)%Z
  /\ let r := Xdg.get_xdg_path 4096 (repeat NUL 4097) (lit "app")
                 "XDG_CONFIG_HOME" (lit ".config")
                 {[ "XDG_CONFIG_HOME"%string := lit "/a/b" ]} Errno.E_NONE in
     r.1.1 = 0%Z /\ cstr r.1.2 = lit "/a/b/app" /\ r.2 = Errno.E_NONE.
Proof.
  assert (H : (0 < 4096 < 2 ^ 64)%Z) by lia.
  split; [exact H|].
  refine (get_xdg_path_selects_base
            4096 (repeat NUL 4097) (lit "app") "XDG_CONFIG_HOME"
            (lit ".config") {[ "XDG_CONFIG_HOME"%string := lit "/a/b" ]}
            Errno.E_NONE H _).
  vm_compute. reflexivity.
Defined.

(** C4 (as stated) fails: the variable is set to the empty string and
    HOME is set, yet the path is composed from the empty value, not from
    HOME and the fallback directory. *)
Lemma get_xdg_path_uses_empty_variable :
  let env : gmap string (list ascii) :=
    <[ "XDG_CONFIG_HOME"%string := [] ]>
      {[ "HOME"%string := lit "/home/u" ]} in
  let r := Xdg.get_xdg_path 4096 (repeat NUL 4097) (lit "app")
             "XDG_CONFIG_HOME" (lit ".config") env Errno.E_NONE in
  env !! "XDG_CONFIG_HOME"%string = Some []
  /\ env !! "HOME"%string = Some (lit "/home/u")
  /\ r.1.1 = 0%Z
  /\ cstr r.1.2 = lit "/app"
  /\ cstr r.1.2 <> lit "/home/u/.config/app".
Proof.
  cbv zeta. split; [reflexivity|]. split; [reflexivity|].
  split; [reflexivity|].
  assert (E : cstr (Xdg.get_xdg_path 4096 (repeat NUL 4097) (lit "app")
                      "XDG_CONFIG_HOME" (lit ".config")
                      (<[ "XDG_CONFIG_HOME"%string := [] ]>
                         {[ "HOME"%string := lit "/home/u" ]})
                      Errno.E_NONE).1.2 = lit "/app")
    by (vm_compute; reflexivity).
  split; [exact E | rewrite E; discriminate].
Qed.

(** A composed path longer than [PATH_MAX] is refused with
    [ENAMETOOLONG] and the buffer is not written. *)
Lemma get_xdg_path_overlong
      (PATH_MAX : Z) (path sub_dir xdg : list ascii) (xdg_dir : string)
      (fallback_dir : list ascii) (env : gmap string (list ascii))
      (errno : Errno.t) :
  (0 < PATH_MAX < 2 ^ 64)%Z ->
  env !! xdg_dir = Some xdg ->
  (PATH_MAX < Z.of_nat (length (cstr xdg ++ [SLASH] ++ cstr sub_dir))
   < 2 ^ 64)%Z ->
  Xdg.get_xdg_path PATH_MAX path sub_dir xdg_dir fallback_dir env errno
  = ((-1)%Z, path, Errno.ENAMETOOLONG).
Proof.
  intros HP Hx Hlen. unfold Xdg.get_xdg_path, Xdg.getenv. rewrite Hx.
  rewrite length_joined in Hlen.
  rewrite size_check2 by lia. rewrite (to_size_t_small PATH_MAX) by lia.
  destruct (Z.gtb_spec (strlen xdg + strlen sub_dir + 1) PATH_MAX);
    [reflexivity | lia].
Qed.

(** A composed path of exactly [PATH_MAX] characters passes the length
    test, and [snprintf], given the size [PATH_MAX], stores it without
    its last character. *)
Lemma get_xdg_path_boundary
      (PATH_MAX : Z) (path sub_dir xdg : list ascii) (xdg_dir : string)
      (fallback_dir : list ascii) (env : gmap string (list ascii))
      (errno : Errno.t) :
  (0 < PATH_MAX < 2 ^ 64)%Z ->
  env !! xdg_dir = Some xdg ->
  Z.of_nat (length (cstr xdg ++ [SLASH] ++ cstr sub_dir)) = PATH_MAX ->
  let r := Xdg.get_xdg_path PATH_MAX path sub_dir xdg_dir fallback_dir
                            env errno in
  r.1.1 = 0%Z
  /\ cstr r.1.2 = removelast (cstr xdg ++ [SLASH] ++ cstr sub_dir).
Proof.
  intros HP Hx Hlen. unfold Xdg.get_xdg_path, Xdg.getenv. rewrite Hx.
  pose proof Hlen as Hlen'. rewrite length_joined in Hlen'.
  rewrite size_check2 by lia. rewrite (to_size_t_small PATH_MAX) by lia.
  destruct (Z.gtb_spec (strlen xdg + strlen sub_dir + 1) PATH_MAX); [lia|].
  cbn [fst snd]. split; [reflexivity|].
  apply snprintf_cuts; [apply joined_nul_free | lia | exact Hlen].
Qed.

(** C5 fails at the boundary: the value of the variable has 4092
    characters, so that value/app has exactly [PATH_MAX] = 4096.  The call
    returns 0 and the buffer holds the composed path without its last
    character. *)
Theorem get_xdg_path_truncates_at_path_max :
  let xdg := SLASH :: repeat "a"%char 4091 in
  let text := xdg ++ [SLASH] ++ lit "app" in
  let r := Xdg.get_xdg_path 4096 (repeat NUL 4097) (lit "app")
             "XDG_DATA_HOME" (lit ".local/share")
             {[ "XDG_DATA_HOME"%string := xdg ]} Errno.E_NONE in
  length text = 4096%nat
  /\ r.1.1 = 0%Z
  /\ r.2 = Errno.E_NONE
  /\ cstr r.1.2 = removelast text
  /\ cstr r.1.2 <> text.
Proof.
  cbv zeta.
  split; [vm_compute; reflexivity|].
  split; [vm_compute; reflexivity|].
  split; [vm_compute; reflexivity|].
  assert (E : cstr (Xdg.get_xdg_path 4096 (repeat NUL 4097) (lit "app")
                      "XDG_DATA_HOME" (lit ".local/share")
                      {[ "XDG_DATA_HOME"%string
                         := SLASH :: repeat "a"%char 4091 ]}
                      Errno.E_NONE).1.2
              = removelast ((SLASH :: repeat "a"%char 4091)
                              ++ [SLASH] ++ lit "app"))
    by (vm_compute; reflexivity).
  split; [exact E|].
  rewrite E. intros H. apply (f_equal (@length ascii)) in H.
  vm_compute in H. discriminate H.
Qed.

End XdgFacts.

(** ** [mkpath] *)

Module MkpathFacts.
Import Chars.

Local Arguments Ascii.eqb : simpl never.

(** Truncating at a separator and putting the separator back gives the
    buffer again. *)
Lemma truncate_restore (buf : list ascii) (i : nat) :
  buf !! i = Some SLASH -> <[i := SLASH]> (<[i := NUL]> buf) = buf.
Proof.
  intros H. rewrite list_insert_insert_eq. apply list_insert_id. exact H.
Qed.

Section WithFileSystem.

Variable FS : Type.
Variable mkdir : list ascii -> Z -> FS -> FS * option Errno.t.

Local Abbreviation walk_path := (Mkpath.walk_path FS mkdir).
Local Abbreviation mkpath := (Mkpath.mkpath FS mkdir).
Local Abbreviation path := (Mkpath.path FS).

Local Abbreviation state_of := (Mkpath.state_of FS).

(** However the loop is left, the buffer is as it was on entry. *)
Lemma walk_path_keeps_buffer (fuel : nat) :
  forall (i : nat) (st : Mkpath.state FS) (w : Mkpath.walk FS),
    walk_path fuel i st = Some w -> path (state_of w) = path st.
Proof.
  induction fuel as [|fuel IH]; intros i st w; simpl; [discriminate|].
  destruct (path st !! i) as [c|] eqn:Hc; [|discriminate].
  destruct (Ascii.eqb c NUL); [intros [= <-]; reflexivity|].
  destruct (Ascii.eqb c SLASH) eqn:Hs; simpl negb; cbv iota;
    [|intros [= <-]; reflexivity].
  apply Ascii.eqb_eq in Hs. subst c.
  rewrite (truncate_restore _ _ Hc).
  destruct (mkdir _ _ _) as [fs1 [e|]].
  - destruct (negb (Errno.eqb e Errno.EEXIST)).
    + intros [= <-]. reflexivity.
    + intros H. apply IH in H. exact H.
  - intros H. apply IH in H. exact H.
Qed.

(** With a terminator ahead and fuel to reach it, the loop is left. *)
Lemma walk_path_total (fuel : nat) :
  forall (i j : nat) (st : Mkpath.state FS),
    path st !! j = Some NUL -> i <= j -> j - i < fuel ->
    is_Some (walk_path fuel i st).
Proof.
  induction fuel as [|fuel IH]; intros i j st Hj Hij Hf; [lia|].
  simpl.
  destruct (path st !! i) as [c|] eqn:Hc.
  2:{ apply lookup_ge_None in Hc. apply lookup_lt_Some in Hj. lia. }
  destruct (Ascii.eqb c NUL) eqn:Hn; [eauto|].
  destruct (Ascii.eqb c SLASH) eqn:Hs; simpl negb; cbv iota; [|eauto].
  apply Ascii.eqb_eq in Hs. subst c.
  assert (Hne : i <> j) by (intros ->; rewrite Hj in Hc; discriminate Hc).
  rewrite (truncate_restore _ _ Hc).
  destruct (mkdir _ _ _) as [fs1 [e|]].
  - destruct (negb (Errno.eqb e Errno.EEXIST)); [eauto|].
    apply (IH (S i) j); [exact Hj | lia | lia].
  - apply (IH (S i) j); [exact Hj | lia | lia].
Qed.

(** Whatever [mkpath] returns, the buffer is as it was on entry. *)
Lemma mkpath_keeps_buffer (buf : list ascii) (disk : FS) (e0 : Errno.t)
      (b : bool) (st : Mkpath.state FS) :
  mkpath buf disk e0 = Some (b, st) -> path st = buf.
Proof.
  unfold Mkpath.mkpath.
  destruct (walk_path (length buf) 1 (Mkpath.mk_state FS buf disk e0))
    as [w|] eqn:Hw; [|discriminate].
  apply walk_path_keeps_buffer in Hw. simpl in Hw.
  destruct w as [st1|st1]; simpl in Hw.
  - destruct (mkdir _ _ _) as [fs1 [e|]].
    + destruct (negb (Errno.eqb e Errno.EEXIST));
        intros [= <- <-]; exact Hw.
    + intros [= <- <-]. exact Hw.
  - intros [= <- <-]. exact Hw.
Qed.

(** C3: for every buffer that holds a terminated string of at least one
    character, every file system and every behaviour of its [mkdir],
    [mkpath] returns, and when it does (with true or with false) the
    buffer holds exactly the bytes it held on entry. *)
Theorem mkpath_restores_buffer (buf : list ascii) (j : nat) (disk : FS)
        (e0 : Errno.t) :
  1 <= j -> buf !! j = Some NUL ->
  exists (b : bool) (st : Mkpath.state FS),
    mkpath buf disk e0 = Some (b, st) /\ path st = buf.
Proof.
  intros Hj Hnul.
  assert (Hlen : j < length buf) by (apply lookup_lt_Some in Hnul; exact Hnul).
  destruct (mkpath buf disk e0) as [[b st]|] eqn:Hrun.
  - exists b, st. split; [reflexivity|].
    eapply mkpath_keeps_buffer. exact Hrun.
  - exfalso. unfold Mkpath.mkpath in Hrun.
    destruct (walk_path_total (length buf) 1 j
                (Mkpath.mk_state FS buf disk e0)) as [w Hw];
      [exact Hnul | exact Hj | lia |].
    rewrite Hw in Hrun. destruct w as [st1|st1]; [|discriminate].
    destruct (mkdir _ _ _) as [fs1 [e|]]; [|discriminate].
    destruct (negb (Errno.eqb e Errno.EEXIST)); discriminate.
Qed.

(** When the second character of the path is not a separator the loop
    is left at once, before any [mkdir]: only the whole path is passed to
    [mkdir]. *)
Lemma walk_path_breaks_at_once (buf : list ascii) (c : ascii) (disk : FS)
      (e0 : Errno.t) :
  buf !! 1 = Some c -> c <> SLASH ->
  walk_path (length buf) 1 (Mkpath.mk_state FS buf disk e0)
  = Some (Mkpath.Left_loop FS (Mkpath.mk_state FS buf disk e0)).
Proof.
  intros Hc Hs.
  assert (Hlen : 1 < length buf) by (apply lookup_lt_Some in Hc; exact Hc).
  destruct (length buf) as [|n]; [lia|]. simpl. rewrite Hc.
  destruct (Ascii.eqb c NUL); [reflexivity|].
  rewrite CharsFacts.eqb_ne by exact Hs. reflexivity.
Qed.

End WithFileSystem.

(** With only [/] and [/tmp] in place the call on [/tmp/x/y/z] fails,
    and the buffer comes back unchanged. *)
Lemma mkpath_restores_buffer_witness :
  1 <= 10
  /\ (lit "/tmp/x/y/z" ++ [NUL]) !! 10%nat = Some NUL
  /\ exists (b : bool) (st : Mkpath.state (gset (list string))),
      Mkpath.mkpath _ DirFs.mkdir (lit "/tmp/x/y/z" ++ [NUL])
                    {[ ["tmp"%string] ]} Errno.E_NONE
      = Some (b, st)
      /\ Mkpath.path _ st = lit "/tmp/x/y/z" ++ [NUL].
Proof.
  assert (H1 : 1 <= 10) by lia.
  assert (H2 : (lit "/tmp/x/y/z" ++ [NUL]) !! 10%nat = Some NUL)
    by reflexivity.
  split; [exact H1|]. split; [exact H2|].
  exact (mkpath_restores_buffer _ DirFs.mkdir
           (lit "/tmp/x/y/z" ++ [NUL]) 10 {[ ["tmp"%string] ]}
           Errno.E_NONE H1 H2).
Defined.

(** C2 fails: only [/] and [/tmp] exist and the path is [/tmp/x/y/z].
    The loop is left at the character [t], the single [mkdir] of the
    whole path fails with [ENOENT], and the call returns false having
    created nothing. *)
Theorem mkpath_creates_no_missing_parent :
  let disk : gset (list string) := {[ ["tmp"%string] ]} in
  let buf := lit "/tmp/x/y/z" ++ [NUL] in
  exists st : Mkpath.state (gset (list string)),
    Mkpath.mkpath _ DirFs.mkdir buf disk Errno.E_NONE = Some (false, st)
    /\ Mkpath.errno _ st = Errno.ENOENT
    /\ Mkpath.fs _ st = disk
    /\ DirFs.exists_dir (Mkpath.fs _ st) "/tmp" = true
    /\ DirFs.exists_dir (Mkpath.fs _ st) "/tmp/x" = false
    /\ DirFs.exists_dir (Mkpath.fs _ st) "/tmp/x/y" = false
    /\ DirFs.exists_dir (Mkpath.fs _ st) "/tmp/x/y/z" = false.
Proof.
  cbv zeta.
  exists (Mkpath.mk_state _ (lit "/tmp/x/y/z" ++ [NUL])
                          {[ ["tmp"%string] ]} Errno.ENOENT).
  split; [vm_compute; reflexivity|].
  cbn [Mkpath.errno Mkpath.fs].
  split; [reflexivity|]. split; [reflexivity|].
  split; [vm_compute; reflexivity|].
  split; [vm_compute; reflexivity|].
  split; vm_compute; reflexivity.
Qed.

End MkpathFacts.

(** ** [fsize] *)

Module FsizeFacts.

(** C9: for every descriptor table and every descriptor, [fsize] returns
    the number of bytes of the file exactly when the metadata query
    succeeds, and the negative value -1 exactly when the query fails,
    be it because the descriptor is not open or for another reason. *)
Theorem fsize_size_or_sentinel (open_files : gmap Z Fsize.open_file)
        (fd : Z) :
  ((exists f,
       open_files !! fd = Some f
       /\ Fsize.fstat open_files fd
          = inr (Fsize.mk_stat (Z.of_nat (length (Fsize.bytes f))))
       /\ Fsize.fsize open_files fd = Z.of_nat (length (Fsize.bytes f)))
   \/ ((exists e, Fsize.fstat open_files fd = inl e)
       /\ Fsize.fsize open_files fd = (-1)%Z))
  /\ ((Fsize.fsize open_files fd < 0)%Z
      <-> exists e, Fsize.fstat open_files fd = inl e)
  /\ ((0 <= Fsize.fsize open_files fd)%Z
      <-> exists st, Fsize.fstat open_files fd = inr st)
  /\ (open_files !! fd = None -> (Fsize.fsize open_files fd < 0)%Z).
Proof.
  unfold Fsize.fsize, Fsize.fstat.
  destruct (open_files !! fd) as [f|] eqn:Hf.
  - destruct (Fsize.stat_error f) as [e|] eqn:He; simpl.
    + split; [right; split; [eauto | reflexivity]|].
      split; [split; [eauto | lia]|].
      split; [split; [lia | intros [st [=]]] | discriminate].
    + split; [left; exists f; repeat split; reflexivity|].
      split; [split; [lia | intros [e [=]]]|].
      split; [split; [eauto | lia] | discriminate].
  - simpl. split; [right; split; [eauto | reflexivity]|].
    split; [split; [eauto | lia]|].
    split; [split; [lia | intros [st [=]]] | lia].
Qed.

End FsizeFacts.

(** ** [set_handler_term] *)

Module SignalsFacts.

(** A signal that the loop does not visit keeps its disposition. *)
Lemma install_other (sigs : list Z) :
  forall (act : Signals.sigaction_t) (tbl : gmap Z Signals.sigaction_t)
         (sig : Z),
    ~ In sig sigs -> Signals.install sigs act tbl !! sig = tbl !! sig.
Proof.
  induction sigs as [|s sigs IH]; intros act tbl sig Hn; simpl;
    [reflexivity|].
  assert (Hs : s <> sig) by (intros ->; apply Hn; left; reflexivity).
  assert (Hr : ~ In sig sigs) by (intros H; apply Hn; right; exact H).
  destruct (negb (Signals.is_ign (Signals.sa_handler (Signals.current tbl s)))).
  - rewrite IH by exact Hr. apply lookup_insert_ne. exact Hs.
  - apply IH. exact Hr.
Qed.

(** Every entry the loop stores carries the handler and the flags of
    [act], and a mask that holds the signal itself. *)
Lemma install_entry (sigs : list Z) :
  forall (act : Signals.sigaction_t) (tbl : gmap Z Signals.sigaction_t)
         (sig : Z) (a : Signals.sigaction_t),
    Signals.install sigs act tbl !! sig = Some a ->
    tbl !! sig = Some a
    \/ (Signals.sa_handler a = Signals.sa_handler act
        /\ Signals.sa_flags a = Signals.sa_flags act
        /\ sig ∈ Signals.sa_mask a).
Proof.
  induction sigs as [|s sigs IH]; intros act tbl sig a; simpl; [tauto|].
  destruct (negb (Signals.is_ign (Signals.sa_handler (Signals.current tbl s)))).
  - intros H. apply IH in H. simpl in H. destruct H as [H|H]; [|right; exact H].
    destruct (decide (s = sig)) as [->|Hne].
    + rewrite lookup_insert_eq in H. injection H as Ha. subst a. right. simpl.
      repeat split. set_solver.
    + rewrite lookup_insert_ne in H by exact Hne. left. exact H.
  - apply IH.
Qed.

(** The first signal of the list is installed with a mask that holds
    that signal alone, whatever is installed after it. *)
Lemma set_handler_term_first_signal (p : Signals.platform)
      (func : Signals.handler) (tbl : gmap Z Signals.sigaction_t) :
  ~ In (Signals.SIGINT p) (tl (Signals.term_sigs p)) ->
  Signals.is_ign (Signals.sa_handler (Signals.current tbl (Signals.SIGINT p)))
  = false ->
  Signals.set_handler_term p func tbl !! Signals.SIGINT p
  = Some (Signals.mk_sigaction func (Signals.SA_RESTART p)
                               {[ Signals.SIGINT p ]}).
Proof.
  intros Hn Hign. unfold Signals.set_handler_term.
  change (Signals.term_sigs p)
    with (Signals.SIGINT p :: tl (Signals.term_sigs p)).
  cbn [Signals.install]. rewrite Hign. cbn [negb].
  rewrite install_other by exact Hn.
  rewrite lookup_insert_eq. cbn [Signals.sa_handler Signals.sa_flags Signals.sa_mask].
  f_equal. f_equal. apply (right_id_L ∅ (∪)).
Qed.

(** C6 fails: on Linux, with every disposition the default one, the
    handler is installed on SIGINT and on SIGTERM with [SA_RESTART], but
    the mask installed for SIGINT holds SIGINT alone: SIGTERM is not
    blocked while the handler runs for SIGINT. *)
Theorem set_handler_term_first_mask_lacks_later_signals :
  let tbl := Signals.set_handler_term Signals.linux (Signals.Func 1) ∅ in
  exists act_int act_term : Signals.sigaction_t,
    tbl !! Signals.SIGINT Signals.linux = Some act_int
    /\ tbl !! Signals.SIGTERM Signals.linux = Some act_term
    /\ Signals.sa_handler act_int = Signals.Func 1
    /\ Signals.sa_handler act_term = Signals.Func 1
    /\ Signals.sa_flags act_int = Signals.SA_RESTART Signals.linux
    /\ Signals.sa_mask act_int = {[ Signals.SIGINT Signals.linux ]}
    /\ Signals.SIGTERM Signals.linux ∉ Signals.sa_mask act_int.
Proof.
  cbv zeta.
  exists (Signals.mk_sigaction (Signals.Func 1) 268435456 {[ 2%Z ]}).
  exists (Signals.mk_sigaction (Signals.Func 1) 268435456
                               ({[ 15%Z ]} ∪ {[ 2%Z ]})).
  split; [vm_compute; reflexivity|].
  split; [vm_compute; reflexivity|].
  cbn [Signals.sa_handler Signals.sa_flags Signals.sa_mask
       Signals.SIGINT Signals.SIGTERM Signals.SA_RESTART Signals.linux].
  repeat split. rewrite elem_of_singleton. lia.
Qed.

End SignalsFacts.

(** ** More on [confirm] *)

Module ConfirmMore.
Import Chars.

Local Arguments Ascii.eqb : simpl never.

(** What the drain loop skips: the rest of the line and its terminator,
    or everything when no terminator is left. *)
Lemma drain_data_split (data : list ascii) :
  (exists s, data = s ++ NL :: Confirm.drain_data data /\ ~ In NL s)
  \/ (~ In NL data /\ Confirm.drain_data data = []).
Proof.
  induction data as [|c data IH]; simpl.
  - right. split; [tauto | reflexivity].
  - destruct (Ascii.eqb c NL) eqn:E.
    + apply Ascii.eqb_eq in E. subst c. left. exists []. split; [reflexivity | tauto].
    + apply Ascii.eqb_neq in E. destruct IH as [(s & Hs & Hn) | (Hn & Hd)].
      * left. exists (c :: s). split; [simpl; congruence|].
        intros [H|H]; [congruence | tauto].
      * right. split; [|exact Hd]. intros [H|H]; [congruence | tauto].
Qed.

Lemma count_nl_free (s : list ascii) :
  ~ In NL s -> count_occ ascii_dec s NL = 0.
Proof. intros H. apply count_occ_not_In. exact H. Qed.

Lemma ends_nl_cons (c : ascii) (pre : list ascii) :
  (exists p, pre = p ++ [NL]) -> exists p, c :: pre = p ++ [NL].
Proof. intros [p ->]. exists (c :: p). reflexivity. Qed.

Lemma line_start_after (l pre : list ascii) :
  (pre = [] \/ exists q, pre = q ++ [NL]) ->
  (l ++ [NL]) ++ pre = [] \/ exists q, (l ++ [NL]) ++ pre = q ++ [NL].
Proof.
  intros [->|[q ->]]; right.
  - exists l. rewrite app_nil_r. reflexivity.
  - exists ((l ++ [NL]) ++ q). rewrite app_assoc. reflexivity.
Qed.

(** The trace of a run on a stream without write failures: the bytes
    consumed, and the number of prompts written. *)
Lemma confirm_loop_trace (n : nat) :
  forall pend fuel prompt in_ e out b sin' serr',
    length pend <= n ->
    Confirm.confirm_loop fuel prompt in_ (Istream.mk pend e)
                         (Ostream.mk out []) = Some (b, sin', serr') ->
    exists pre k,
      pend = pre ++ Istream.pending sin'
      /\ Istream.at_end sin' = e
      /\ serr' = Ostream.mk (out ++ concat (repeat prompt k)) []
      /\ count_occ ascii_dec pre NL <= k <= count_occ ascii_dec pre NL + 2
      /\ 1 <= k
      /\ (Istream.pending sin' = [] \/ exists p, pre = p ++ [NL])
      /\ (b = true ->
          k = count_occ ascii_dec pre NL
          /\ exists p0, pre = p0 ++ [Confirm.CHAR_YES; NL]
                        /\ (p0 = [] \/ exists q, p0 = q ++ [NL])).
Proof.
  assert (Hone : forall (out prompt : list ascii),
             out ++ prompt = out ++ concat (repeat prompt 1)).
  { intros. simpl. rewrite app_nil_r. reflexivity. }
  assert (Hsucc : forall (out prompt : list ascii) k,
             (out ++ prompt) ++ concat (repeat prompt k)
             = out ++ concat (repeat prompt (S k))).
  { intros. simpl. rewrite app_assoc. reflexivity. }
  assert (Hend : forall fuel prompt in_ e out b sin' serr',
             Confirm.confirm_loop fuel prompt in_ (Istream.mk [] e)
                                  (Ostream.mk out []) = Some (b, sin', serr') ->
             b = false /\ sin' = Istream.mk [] e
             /\ serr' = Ostream.mk (out ++ prompt) []).
  { intros fuel prompt in_ e out b sin' serr' H.
    destruct fuel; [discriminate|]. rewrite ConfirmFacts.loop_at_end in H.
    injection H as <- <- <-. repeat split. }
  induction n as [|n IH];
    intros pend fuel prompt in_ e out b sin' serr' Hn Hrun.
  - destruct pend; [|simpl in Hn; lia].
    apply Hend in Hrun. destruct Hrun as (-> & -> & ->).
    exists [], 1. simpl. rewrite app_nil_r.
    repeat split; try lia; try discriminate; left; reflexivity.
  - destruct pend as [|c pend].
    { apply Hend in Hrun. destruct Hrun as (-> & -> & ->).
      exists [], 1. simpl. rewrite app_nil_r.
      repeat split; try lia; try discriminate; left; reflexivity. }
    destruct fuel as [|fuel]; [discriminate|].
    simpl in Hn.
    destruct (ascii_dec c NL) as [->|Hc].
    { (* an empty line *)
      rewrite ConfirmFacts.loop_empty_line in Hrun. simpl snd in Hrun.
      apply IH in Hrun; [|lia].
      destruct Hrun as (pre & k & Hp & He & Hs & Hk & H1 & Hb & Ht).
      exists (NL :: pre), (S k). rewrite Hsucc in Hs.
      rewrite count_occ_cons_eq by reflexivity.
      split; [simpl; congruence|]. split; [exact He|]. split; [exact Hs|].
      split; [lia|]. split; [lia|].
      split.
      { destruct Hb as [Hb|Hb]; [left; exact Hb|].
        right. apply ends_nl_cons. exact Hb. }
      intros Hb'. destruct (Ht Hb') as (Hk' & p0 & Hp0 & Hl).
      split; [lia|]. exists (NL :: p0). split; [simpl; congruence|].
      right. destruct Hl as [->|Hl]; [exists []; reflexivity|].
      apply ends_nl_cons. exact Hl. }
    destruct pend as [|d pend].
    { (* a single byte and then the end *)
      destruct e.
      - rewrite ConfirmFacts.loop_lone_byte_eof in Hrun by exact Hc.
        simpl snd in Hrun. apply Hend in Hrun.
        destruct Hrun as (-> & -> & ->).
        exists [c], 2. simpl. rewrite app_nil_r, <- app_assoc.
        destruct (ascii_dec c NL); [contradiction|].
        repeat split; try lia; try discriminate; left; reflexivity.
      - rewrite ConfirmFacts.loop_lone_byte_err in Hrun by exact Hc.
        simpl snd in Hrun. injection Hrun as <- <- <-.
        exists [c], 1. simpl. rewrite app_nil_r.
        destruct (ascii_dec c NL); [contradiction|].
        repeat split; try lia; try discriminate; left; reflexivity. }
    simpl in Hn.
    destruct (ascii_dec d NL) as [->|Hd].
    { (* a line of one byte *)
      rewrite ConfirmFacts.loop_one_byte_line in Hrun by exact Hc.
      simpl snd in Hrun.
      destruct (Ascii.eqb c Confirm.CHAR_YES) eqn:Ey.
      { apply Ascii.eqb_eq in Ey. subst c. injection Hrun as <- <- <-.
        exists [Confirm.CHAR_YES; NL], 1. rewrite <- Hone.
        split; [reflexivity|]. split; [reflexivity|]. split; [reflexivity|].
        split; [vm_compute; lia|]. split; [lia|].
        split; [right; exists [Confirm.CHAR_YES]; reflexivity|].
        intros _. split; [reflexivity|]. exists []. split; [reflexivity|].
        left. reflexivity. }
      destruct (Ascii.eqb c Confirm.CHAR_NO) eqn:En.
      { apply Ascii.eqb_eq in En. subst c. injection Hrun as <- <- <-.
        exists [Confirm.CHAR_NO; NL], 1. rewrite <- Hone.
        split; [reflexivity|]. split; [reflexivity|]. split; [reflexivity|].
        split; [vm_compute; lia|]. split; [lia|].
        split; [right; exists [Confirm.CHAR_NO]; reflexivity|].
        discriminate. }
      apply IH in Hrun; [|lia].
      destruct Hrun as (pre & k & Hp & He & Hs & Hk & H1 & Hb & Ht).
      exists (c :: NL :: pre), (S k). rewrite Hsucc in Hs.
      rewrite count_occ_cons_neq by congruence.
      rewrite count_occ_cons_eq by reflexivity.
      split; [simpl; congruence|]. split; [exact He|]. split; [exact Hs|].
      split; [lia|]. split; [lia|].
      split.
      { destruct Hb as [Hb|Hb]; [left; exact Hb|].
        right. apply ends_nl_cons, ends_nl_cons. exact Hb. }
      intros Hb'. destruct (Ht Hb') as (Hk' & p0 & Hp0 & Hl).
      split; [lia|]. exists (c :: NL :: p0). split; [simpl; congruence|].
      right. destruct Hl as [->|Hl]; [exists [c]; reflexivity|].
      apply ends_nl_cons, ends_nl_cons. exact Hl. }
    (* a longer line: its rest is drained *)
    rewrite ConfirmFacts.loop_long_line in Hrun by assumption.
    simpl snd in Hrun.
    destruct (drain_data_split pend) as [(s & Hs' & Hns) | (Hnp & Hdr)].
    + pose proof (ConfirmFacts.drain_data_length pend) as Hlen.
      apply IH in Hrun; [|lia].
      destruct Hrun as (pre & k & Hp & He & Hs & Hk & H1 & Hb & Ht).
      exists (c :: d :: (s ++ [NL]) ++ pre), (S k). rewrite Hsucc in Hs.
      rewrite count_occ_cons_neq by congruence.
      rewrite count_occ_cons_neq by congruence.
      rewrite !count_occ_app, (count_nl_free s Hns).
      rewrite count_occ_cons_eq by reflexivity. simpl count_occ.
      split.
      { simpl. f_equal. f_equal. rewrite <- !app_assoc. simpl.
        rewrite <- Hp. exact Hs'. }
      split; [exact He|]. split; [exact Hs|].
      split; [lia|]. split; [lia|].
      split.
      { destruct Hb as [Hb|Hb]; [left; exact Hb|].
        right. destruct Hb as [p ->].
        exists (c :: d :: (s ++ [NL]) ++ p).
        simpl. rewrite <- !app_assoc. reflexivity. }
      intros Hb'. destruct (Ht Hb') as (Hk' & p0 & Hp0 & Hl).
      split; [lia|]. exists (c :: d :: (s ++ [NL]) ++ p0).
      split; [rewrite Hp0; simpl; rewrite <- !app_assoc; reflexivity|].
      right. destruct (line_start_after s p0 Hl) as [H|[q Hq]].
      * destruct s; discriminate H.
      * exists (c :: d :: q). simpl. rewrite Hq. reflexivity.
    + rewrite Hdr in Hrun. apply Hend in Hrun.
      destruct Hrun as (-> & -> & ->).
      exists (c :: d :: pend), 2. simpl.
      destruct (ascii_dec c NL); [contradiction|].
      destruct (ascii_dec d NL); [contradiction|].
      rewrite (count_nl_free pend Hnp).
      rewrite app_nil_r, app_nil_r, <- app_assoc.
      repeat split; try lia; try discriminate; left; reflexivity.
Qed.

(** The answer and the bytes consumed do not depend on the diagnostic
    stream. *)
Lemma confirm_loop_any_stream (fuel : nat) :
  forall prompt in_ sin serr b sin' serr' serr2,
    Confirm.confirm_loop fuel prompt in_ sin serr = Some (b, sin', serr') ->
    exists serr2',
      Confirm.confirm_loop fuel prompt in_ sin serr2 = Some (b, sin', serr2').
Proof.
  induction fuel as [|fuel IH];
    intros prompt in_ sin serr b sin' serr' serr2; [discriminate|].
  rewrite !ConfirmFacts.confirm_loop_S. cbv zeta.
  destruct (Istream.fgets in_ 3 sin) as [[in1|] sin1].
  - destruct (negb (Ascii.eqb (Confirm.at_ in1 1) NL)
              && negb (Ascii.eqb (Confirm.at_ in1 0) NL)).
    + apply IH.
    + destruct (Ascii.eqb (Confirm.at_ in1 0) Confirm.CHAR_YES).
      { intros [= <- <- <-]. eauto. }
      destruct (Ascii.eqb (Confirm.at_ in1 0) Confirm.CHAR_NO).
      { intros [= <- <- <-]. eauto. }
      apply IH.
  - intros [= <- <- <-]. eauto.
Qed.

(** A rejected line is consumed with its terminator, the prompt is
    written, and the call goes on with the rest of the input. *)
Lemma confirm_skips_rejected_line (prompt line rest : list ascii)
      (e : Istream.ending) (serr : Ostream.t) :
  ~ In NL line -> line <> [Confirm.CHAR_YES] -> line <> [Confirm.CHAR_NO] ->
  Confirm.confirm prompt (Istream.mk (line ++ NL :: rest) e) serr
  = Confirm.confirm prompt (Istream.mk rest e)
                    (snd (Ostream.fputs prompt serr)).
Proof.
  intros Hn Hy Hno. unfold Confirm.confirm at 1. cbn [Istream.pending].
  destruct line as [|c line].
  - simpl app. rewrite ConfirmFacts.loop_empty_line.
    apply ConfirmFacts.confirm_loop_is_confirm. simpl. lia.
  - assert (Hc : c <> NL) by (intros ->; apply Hn; left; reflexivity).
    assert (Hl : ~ In NL line) by (intros H; apply Hn; right; exact H).
    destruct line as [|d line].
    + simpl app. rewrite ConfirmFacts.loop_one_byte_line by exact Hc.
      rewrite CharsFacts.eqb_ne by congruence.
      rewrite CharsFacts.eqb_ne by congruence.
      apply ConfirmFacts.confirm_loop_is_confirm. simpl. lia.
    + assert (Hd : d <> NL) by (intros ->; apply Hl; left; reflexivity).
      assert (Hl' : ~ In NL line) by (intros H; apply Hl; right; exact H).
      simpl app. simpl length.
      rewrite ConfirmFacts.loop_long_line by assumption.
      rewrite ConfirmFacts.drain_data_line by exact Hl'.
      apply ConfirmFacts.confirm_loop_is_confirm.
      rewrite length_app. simpl. lia.
Qed.

Lemma confirm_answer_line (prompt rest : list ascii) (c : ascii)
      (e : Istream.ending) (serr : Ostream.t) :
  c = Confirm.CHAR_YES \/ c = Confirm.CHAR_NO ->
  Confirm.confirm prompt (Istream.mk (c :: NL :: rest) e) serr
  = Some (Ascii.eqb c Confirm.CHAR_YES, Istream.mk rest e,
          snd (Ostream.fputs prompt serr)).
Proof.
  intros Hc. unfold Confirm.confirm. cbn [Istream.pending length].
  rewrite ConfirmFacts.loop_one_byte_line by (destruct Hc; subst c; discriminate).
  destruct Hc; subst c; reflexivity.
Qed.

(** X1: [confirm] reads whole lines only.  Whatever it returns, the
    bytes it has consumed are a prefix of the input that ends with a line
    terminator, unless the input is used up; and when it returns true the
    last line consumed is the line [y]. *)
Theorem confirm_stops_at_line_boundary
        (prompt pend : list ascii) (e : Istream.ending) (serr : Ostream.t)
        (b : bool) (sin' : Istream.t) (serr' : Ostream.t) :
  Confirm.confirm prompt (Istream.mk pend e) serr = Some (b, sin', serr') ->
  exists pre,
    pend = pre ++ Istream.pending sin'
    /\ Istream.at_end sin' = e
    /\ (Istream.pending sin' = [] \/ exists p, pre = p ++ [NL])
    /\ (b = true ->
        exists p0, pre = p0 ++ [Confirm.CHAR_YES; NL]
                   /\ (p0 = [] \/ exists q, p0 = q ++ [NL])).
Proof.
  unfold Confirm.confirm. cbn [Istream.pending]. intros Hrun.
  destruct (confirm_loop_any_stream _ _ _ _ _ _ _ _ (Ostream.mk [] []) Hrun)
    as [serr2 Hrun2].
  destruct (confirm_loop_trace (length pend) _ _ _ _ _ _ _ _ _
                               (Nat.le_refl _) Hrun2)
    as (pre & k & Hp & He & _ & _ & _ & Hb & Ht).
  exists pre. split; [exact Hp|]. split; [exact He|]. split; [exact Hb|].
  intros Hb'. destruct (Ht Hb') as (_ & H). exact H.
Qed.

(** The line [no] is rejected, the line [y] accepted, and [rest] is left
    unread. *)
Lemma confirm_stops_at_line_boundary_witness :
  Confirm.confirm (lit "? ")
    (Istream.mk (lit "no" ++ NL :: lit "y" ++ NL :: lit "rest") Istream.AtEof)
    (Ostream.healthy [])
  = Some (true, Istream.mk (lit "rest") Istream.AtEof,
          Ostream.healthy (lit "? ? "))
  /\ exists pre,
      lit "no" ++ NL :: lit "y" ++ NL :: lit "rest" = pre ++ lit "rest"
      /\ exists p0, pre = p0 ++ [Confirm.CHAR_YES; NL].
Proof.
  assert (H : Confirm.confirm (lit "? ")
                (Istream.mk (lit "no" ++ NL :: lit "y" ++ NL :: lit "rest")
                            Istream.AtEof)
                (Ostream.healthy [])
              = Some (true, Istream.mk (lit "rest") Istream.AtEof,
                      Ostream.healthy (lit "? ? ")))
    by (vm_compute; reflexivity).
  split; [exact H|].
  destruct (confirm_stops_at_line_boundary _ _ _ _ _ _ _ H)
    as (pre & Hp & _ & _ & Ht).
  exists pre. split; [exact Hp|].
  destruct (Ht eq_refl) as (p0 & Hp0 & _). exists p0. exact Hp0.
Defined.

(** X2: on a diagnostic stream without write failures, [confirm] writes
    nothing but copies of the prompt: at least one, at least one per line
    consumed and at most two more than that; when it returns true, exactly
    one per line consumed. *)
Theorem confirm_writes_only_prompts
        (prompt pend out : list ascii) (e : Istream.ending)
        (b : bool) (sin' : Istream.t) (serr' : Ostream.t) :
  Confirm.confirm prompt (Istream.mk pend e) (Ostream.mk out [])
  = Some (b, sin', serr') ->
  exists pre k,
    pend = pre ++ Istream.pending sin'
    /\ serr' = Ostream.mk (out ++ concat (repeat prompt k)) []
    /\ 1 <= k
    /\ count_occ ascii_dec pre NL <= k <= count_occ ascii_dec pre NL + 2
    /\ (b = true -> k = count_occ ascii_dec pre NL).
Proof.
  unfold Confirm.confirm. cbn [Istream.pending]. intros Hrun.
  destruct (confirm_loop_trace (length pend) _ _ _ _ _ _ _ _ _
                               (Nat.le_refl _) Hrun)
    as (pre & k & Hp & _ & Hs & Hk & H1 & _ & Ht).
  exists pre, k. split; [exact Hp|]. split; [exact Hs|].
  split; [exact H1|]. split; [exact Hk|].
  intros Hb'. destruct (Ht Hb') as (H & _). exact H.
Qed.

(** Two lines are read and the prompt is written twice. *)
Lemma confirm_writes_only_prompts_witness :
  Confirm.confirm (lit "? ")
    (Istream.mk (lit "no" ++ NL :: lit "y" ++ NL :: lit "rest") Istream.AtEof)
    (Ostream.mk [] [])
  = Some (true, Istream.mk (lit "rest") Istream.AtEof,
          Ostream.mk (lit "? ? ") [])
  /\ exists pre k,
      lit "no" ++ NL :: lit "y" ++ NL :: lit "rest" = pre ++ lit "rest"
      /\ Ostream.mk (lit "? ? ") []
         = Ostream.mk ([] ++ concat (repeat (lit "? ") k)) []
      /\ k = count_occ ascii_dec pre NL.
Proof.
  assert (H : Confirm.confirm (lit "? ")
                (Istream.mk (lit "no" ++ NL :: lit "y" ++ NL :: lit "rest")
                            Istream.AtEof)
                (Ostream.mk [] [])
              = Some (true, Istream.mk (lit "rest") Istream.AtEof,
                      Ostream.mk (lit "? ? ") []))
    by (vm_compute; reflexivity).
  split; [exact H|].
  destruct (confirm_writes_only_prompts _ _ _ _ _ _ _ H)
    as (pre & k & Hp & Hs & _ & _ & Ht).
  exists pre, k. split; [exact Hp|]. split; [exact Hs|]. exact (Ht eq_refl).
Defined.

(** X3: the first line that is [y] or [n] decides.  After any number of
    other lines, each consumed with its terminator, the line [y] gives
    true and the line [n] gives false; the prompt has then been written
    once per line read, and the input after the answer is left unread. *)
Theorem confirm_first_answer_decides
        (prompt rest : list ascii) (lines : list (list ascii)) (c : ascii)
        (e : Istream.ending) (serr : Ostream.t) :
  Forall (fun l => ~ In NL l /\ l <> [Confirm.CHAR_YES]
                   /\ l <> [Confirm.CHAR_NO]) lines ->
  c = Confirm.CHAR_YES \/ c = Confirm.CHAR_NO ->
  Confirm.confirm prompt
    (Istream.mk (concat (map (fun l => l ++ [NL]) lines) ++ c :: NL :: rest) e)
    serr
  = Some (Ascii.eqb c Confirm.CHAR_YES, Istream.mk rest e,
          Nat.iter (S (length lines))
                   (fun s => snd (Ostream.fputs prompt s)) serr).
Proof.
  intros Hlines Hc. revert serr.
  induction Hlines as [|l lines (Hn & Hy & Hno) _ IH]; intros serr.
  - simpl concat. simpl app. rewrite confirm_answer_line by exact Hc.
    reflexivity.
  - simpl map. simpl concat. rewrite <- !app_assoc. simpl app.
    rewrite confirm_skips_rejected_line by assumption.
    rewrite IH. simpl length. rewrite (Nat.iter_succ_r (S (length lines))).
    reflexivity.
Qed.

(** Three rejected lines, then [n]. *)
Lemma confirm_first_answer_decides_witness :
  Forall (fun l => ~ In NL l /\ l <> [Confirm.CHAR_YES]
                   /\ l <> [Confirm.CHAR_NO])
         [lit "Y"; []; lit "yes"]
  /\ Confirm.confirm (lit "? ")
       (Istream.mk (lit "Y" ++ NL :: NL :: lit "yes" ++ NL :: lit "n"
                        ++ NL :: lit "y" ++ [NL]) Istream.AtEof)
       (Ostream.healthy [])
     = Some (false, Istream.mk (lit "y" ++ [NL]) Istream.AtEof,
             Ostream.healthy (lit "? ? ? ? ")).
Proof.
  assert (H : Forall (fun l => ~ In NL l /\ l <> [Confirm.CHAR_YES]
                               /\ l <> [Confirm.CHAR_NO])
                     [lit "Y"; []; lit "yes"]).
  { repeat constructor; try discriminate; cbv; intuition discriminate. }
  split; [exact H|].
  exact (confirm_first_answer_decides
           (lit "? ") (lit "y" ++ [NL]) [lit "Y"; []; lit "yes"]
           Confirm.CHAR_NO Istream.AtEof (Ostream.healthy [])
           H (or_intror eq_refl)).
Defined.

End ConfirmMore.

(** ** More on [getusrln] *)

Module GetusrlnMore.
Import Chars.

Local Arguments Ascii.eqb : simpl never.

Lemma take_line_terminated (line rest : list ascii) :
  ~ In NL line ->
  Istream.take_line (line ++ NL :: rest) = (line ++ [NL], rest, false).
Proof.
  induction line as [|c line IH]; intros Hn; simpl; [reflexivity|].
  rewrite CharsFacts.eqb_ne by (intros ->; apply Hn; left; reflexivity).
  rewrite IH by (intros H; apply Hn; right; exact H). reflexivity.
Qed.

Lemma getline_terminated (line rest : list ascii) (e : Istream.ending) :
  ~ In NL line ->
  Istream.getline (Istream.mk (line ++ NL :: rest) e)
  = (Some ((line ++ [NL]) ++ [NUL]), Z.of_nat (length (line ++ [NL])),
     Istream.mk rest e).
Proof.
  intros Hn. unfold Istream.getline. cbn [Istream.pending Istream.at_end].
  rewrite take_line_terminated by exact Hn.
  destruct (line ++ [NL]) eqn:E; [destruct line; discriminate E|].
  reflexivity.
Qed.

(** What [take_line] reads is a prefix of the data. *)
Lemma take_line_prefix (data : list ascii) :
  forall got more hit,
    Istream.take_line data = (got, more, hit) -> data = got ++ more.
Proof.
  induction data as [|c data IH]; intros got more hit; simpl.
  - intros [= <- <- <-]. reflexivity.
  - destruct (Ascii.eqb c NL).
    + intros [= <- <- <-]. reflexivity.
    + destruct (Istream.take_line data) as [[g m] h].
      intros [= <- <- <-]. simpl. f_equal. eapply IH. reflexivity.
Qed.

(** A call of [getline] that does not return -1 has read at least one
    byte. *)
Lemma getline_success (st st' : Istream.t) (buf : option (list ascii))
      (sz : Z) :
  Istream.getline st = (buf, sz, st') -> sz <> (-1)%Z ->
  exists got,
    got <> []
    /\ buf = Some (got ++ [NUL])
    /\ sz = Z.of_nat (length got)
    /\ Istream.pending st = got ++ Istream.pending st'.
Proof.
  unfold Istream.getline.
  destruct (Istream.take_line (Istream.pending st)) as [[got more] hit] eqn:E.
  apply take_line_prefix in E.
  destruct got as [|c got]; [intros [= <- <- <-]; congruence|].
  destruct hit, (Istream.at_end st); intros [= <- <- <-] Hsz;
    try congruence;
    (exists (c :: got); repeat split; [discriminate | exact E]).
Qed.

Section WithEcho.

Variable ECHO : Z.

Local Abbreviation getusrln := (Getusrln.getusrln ECHO).



(** X5: in show mode, a line with its terminator is read whole and the
    rest of the input is left; the terminal is not touched and only the
    prompt is written.  With a length slot the buffer still holds the
    terminator and the stored length is that of the line without it;
    without one the terminator is replaced by a NUL. *)
Theorem getusrln_show_reads_line
        (prompt line rest : list ascii) (has_len : bool)
        (e : Istream.ending) (w : Getusrln.world) :
  ~ In NL line ->
  Getusrln.sin w = Istream.mk (line ++ NL :: rest) e ->
  getusrln prompt has_len Getusrln.IN_SHOW w
  = ((if has_len
      then Getusrln.mk_outcome (Some (line ++ [NL; NUL]))
                               (Some (Z.of_nat (length line)))
      else Getusrln.mk_outcome (Some (line ++ [NUL; NUL])) None),
     Getusrln.mk_world (Getusrln.tty w) (Istream.mk rest e)
                       (snd (Ostream.fputs prompt (Getusrln.serr w)))).
Proof.
  intros Hn Hsin. unfold Getusrln.getusrln, Getusrln.read_and_restore.
  rewrite Hsin, getline_terminated by exact Hn.
  assert (Hsz : (Z.of_nat (length (line ++ [NL])) =? -1)%Z = false)
    by (apply Z.eqb_neq; lia).
  rewrite Hsz. cbn [Getusrln.is_hide orb negb].
  destruct has_len.
  - f_equal. f_equal; [rewrite <- app_assoc; reflexivity|].
    f_equal. rewrite length_app. simpl. lia.
  - f_equal. f_equal. f_equal.
    rewrite GetusrlnFacts.insert_last_byte by (destruct line; discriminate).
    rewrite removelast_last. reflexivity.
Qed.


(** X7: in show mode the terminal is never touched, whatever the input,
    and a newline follows the prompt exactly when the call fails. *)
Theorem getusrln_show_leaves_terminal
        (prompt : list ascii) (has_len : bool) (w : Getusrln.world) :
  let r := getusrln prompt has_len Getusrln.IN_SHOW w in
  Getusrln.tty (snd r) = Getusrln.tty w
  /\ Getusrln.serr (snd r)
     = match Getusrln.ret (fst r) with
       | Some _ => snd (Ostream.fputs prompt (Getusrln.serr w))
       | None => snd (Ostream.fputc NL
                        (snd (Ostream.fputs prompt (Getusrln.serr w))))
       end.
Proof.
  unfold Getusrln.getusrln, Getusrln.read_and_restore.
  destruct (Istream.getline (Getusrln.sin w)) as [[b sz] sin1] eqn:G.
  cbn [Getusrln.is_hide orb].
  destruct (sz =? -1)%Z eqn:Hsz; [split; reflexivity|].
  apply Z.eqb_neq in Hsz.
  destruct (getline_success _ _ _ _ G Hsz) as (got & _ & -> & _ & _).
  cbn [negb]. destruct has_len; split; reflexivity.
Qed.

(** X8: in hide mode, when standard input is not a terminal or echo
    cannot be switched off, the call returns [NULL] before anything else
    happens: no prompt is written, no input is read, and the terminal
    attributes are as before. *)
Theorem getusrln_hide_unavailable
        (prompt : list ascii) (has_len : bool) (w : Getusrln.world) :
  Tty.attrs (Getusrln.tty w) = None
  \/ hd false (Tty.set_faults (Getusrln.tty w)) = true ->
  let r := getusrln prompt has_len Getusrln.IN_HIDE w in
  fst r = Getusrln.returned_null
  /\ Getusrln.sin (snd r) = Getusrln.sin w
  /\ Getusrln.serr (snd r) = Getusrln.serr w
  /\ Tty.attrs (Getusrln.tty (snd r)) = Tty.attrs (Getusrln.tty w).
Proof.
  intros H. unfold Getusrln.getusrln, Tty.tcgetattr, Tty.tcsetattr.
  destruct (Tty.attrs (Getusrln.tty w)) as [old|] eqn:Ha.
  - destruct H as [H|H]; [discriminate H|].
    destruct (Tty.set_faults (Getusrln.tty w)) as [|[|] fs];
      try discriminate H.
    simpl. repeat split.
  - simpl. rewrite Ha. repeat split.
Qed.

(** X9: in hide mode, whenever a buffer is returned the terminal
    attributes are those that were in force before the call. *)
Theorem getusrln_hide_success_restores_terminal
        (prompt : list ascii) (has_len : bool) (w w' : Getusrln.world)
        (out : Getusrln.outcome) (buf : list ascii) :
  getusrln prompt has_len Getusrln.IN_HIDE w = (out, w') ->
  Getusrln.ret out = Some buf ->
  Tty.attrs (Getusrln.tty w') = Tty.attrs (Getusrln.tty w).
Proof.
  intros Hrun Hret.
  exact (GetusrlnFacts.getusrln_success_restores ECHO prompt has_len w w'
           out buf Hrun Hret).
Qed.

(** X10: in hide mode, when the input is at its end (or the read
    fails) after echo was switched off, the call returns [NULL] having
    written the prompt and a newline, and the terminal is left with the
    attributes without [ECHO]: no second [tcsetattr] is made. *)
Theorem getusrln_hide_read_failure
        (prompt : list ascii) (has_len : bool) (w : Getusrln.world)
        (old : Tty.termios) (e : Istream.ending) :
  Getusrln.tty w = Tty.mk (Some old) [] ->
  Getusrln.sin w = Istream.mk [] e ->
  getusrln prompt has_len Getusrln.IN_HIDE w
  = (Getusrln.returned_null,
     Getusrln.mk_world (Tty.mk (Some (Getusrln.without_echo ECHO old)) [])
       (Istream.mk [] e)
       (snd (Ostream.fputc NL
               (snd (Ostream.fputs prompt (Getusrln.serr w)))))).
Proof.
  intros Htty Hsin. unfold Getusrln.getusrln, Tty.tcgetattr.
  rewrite Htty. cbn [Tty.attrs Tty.tcsetattr Tty.set_faults].
  unfold Getusrln.read_and_restore.
  cbn [Getusrln.sin Getusrln.serr Getusrln.tty].
  rewrite Hsin. reflexivity.
Qed.

End WithEcho.


(** [hello] read with a length slot: five bytes. *)
Lemma getusrln_show_reads_line_witness :
  ~ In NL (lit "hello")
  /\ Getusrln.getusrln 8 (lit "> ") true Getusrln.IN_SHOW
       (Getusrln.mk_world (Tty.mk None [])
          (Istream.mk (lit "hello" ++ NL :: lit "more") Istream.AtEof)
          (Ostream.healthy []))
     = (Getusrln.mk_outcome (Some (lit "hello" ++ [NL; NUL])) (Some 5%Z),
        Getusrln.mk_world (Tty.mk None [])
          (Istream.mk (lit "more") Istream.AtEof)
          (Ostream.healthy (lit "> "))).
Proof.
  assert (Hn : ~ In NL (lit "hello")) by (cbv; intuition discriminate).
  split; [exact Hn|].
  exact (getusrln_show_reads_line 8 (lit "> ") (lit "hello") (lit "more")
           true Istream.AtEof
           (Getusrln.mk_world (Tty.mk None [])
              (Istream.mk (lit "hello" ++ NL :: lit "more") Istream.AtEof)
              (Ostream.healthy []))
           Hn eq_refl).
Defined.


(** Standard input is a pipe: nothing is prompted and nothing is read. *)
Lemma getusrln_hide_unavailable_witness :
  let w := Getusrln.mk_world (Tty.mk None [])
             (Istream.mk (lit "secret" ++ [NL]) Istream.AtEof)
             (Ostream.healthy []) in
  let r := Getusrln.getusrln 8 (lit "Password: ") false Getusrln.IN_HIDE w in
  (Tty.attrs (Getusrln.tty w) = None
   \/ hd false (Tty.set_faults (Getusrln.tty w)) = true)
  /\ fst r = Getusrln.returned_null
  /\ Getusrln.sin (snd r) = Getusrln.sin w
  /\ Getusrln.serr (snd r) = Getusrln.serr w
  /\ Tty.attrs (Getusrln.tty (snd r)) = Tty.attrs (Getusrln.tty w).
Proof.
  cbv zeta.
  assert (H : Tty.attrs (Tty.mk None []) = None
              \/ hd false (Tty.set_faults (Tty.mk None [])) = true)
    by (left; reflexivity).
  split; [exact H|].
  exact (getusrln_hide_unavailable 8 (lit "Password: ") false
           (Getusrln.mk_world (Tty.mk None [])
              (Istream.mk (lit "secret" ++ [NL]) Istream.AtEof)
              (Ostream.healthy [])) H).
Defined.

(** After a password was read the terminal echoes again. *)
Lemma getusrln_hide_success_restores_terminal_witness :
  let w := Getusrln.mk_world (Tty.mk (Some (Tty.mk_termios 0 0 0 10)) [])
             (Istream.mk (lit "secret" ++ [NL]) Istream.AtEof)
             (Ostream.healthy []) in
  exists out w' buf,
    Getusrln.getusrln 8 (lit "Password: ") false Getusrln.IN_HIDE w
    = (out, w')
    /\ Getusrln.ret out = Some buf
    /\ Tty.attrs (Getusrln.tty w') = Some (Tty.mk_termios 0 0 0 10).
Proof.
  cbv zeta.
  set (w := Getusrln.mk_world (Tty.mk (Some (Tty.mk_termios 0 0 0 10)) [])
              (Istream.mk (lit "secret" ++ [NL]) Istream.AtEof)
              (Ostream.healthy [])).
  destruct (Getusrln.getusrln 8 (lit "Password: ") false Getusrln.IN_HIDE w)
    as [out w'] eqn:Hrun.
  destruct (Getusrln.ret out) as [buf|] eqn:Hret.
  - exists out, w', buf. split; [reflexivity|]. split; [exact Hret|].
    exact (getusrln_hide_success_restores_terminal
             8 (lit "Password: ") false w w' out buf Hrun Hret).
  - vm_compute in Hrun. injection Hrun as <- <-. discriminate Hret.
Defined.

(** End-of-file at the password prompt. *)
Lemma getusrln_hide_read_failure_witness :
  Getusrln.getusrln 8 (lit "Password: ") false Getusrln.IN_HIDE
    (Getusrln.mk_world (Tty.mk (Some (Tty.mk_termios 0 0 0 10)) [])
       (Istream.mk [] Istream.AtEof) (Ostream.healthy []))
  = (Getusrln.returned_null,
     Getusrln.mk_world (Tty.mk (Some (Tty.mk_termios 0 0 0 2)) [])
       (Istream.mk [] Istream.AtEof)
       (Ostream.healthy (lit "Password: " ++ [NL]))).
Proof.
  exact (getusrln_hide_read_failure 8 (lit "Password: ") false
           (Getusrln.mk_world (Tty.mk (Some (Tty.mk_termios 0 0 0 10)) [])
              (Istream.mk [] Istream.AtEof) (Ostream.healthy []))
           (Tty.mk_termios 0 0 0 10) Istream.AtEof eq_refl eq_refl).
Defined.

End GetusrlnMore.

(** ** More on the diagnostic writers *)

Module MsgMore.
Import Chars.

Section Writers.

Variable colour : bool.
Variable format : Type.
Variable va_list : Type.
Variable render : format -> va_list -> option (list ascii).

Local Abbreviation writer := (Msg.writer colour format va_list render).


End Writers.

End MsgMore.

(** ** More on [get_xdg_path] *)

Module XdgMore.
Import Chars.

Lemma take_nul_free (n : nat) (text : list ascii) :
  ~ In NUL text -> ~ In NUL (take n text).
Proof.
  intros Hn H. apply Hn.
  rewrite <- (take_drop n text). apply in_or_app. left. exact H.
Qed.

(** What [snprintf] leaves in a buffer of at least [n] bytes: a string
    shorter than [n], in a buffer of the same size. *)
Lemma snprintf_bounded (path text : list ascii) (n : Z) :
  ~ In NUL text -> (0 < n)%Z -> (n <= Z.of_nat (length path))%Z ->
  length (Xdg.snprintf path n text) = length path
  /\ (strlen (Xdg.snprintf path n text) < n)%Z
  /\ exists rest, text = cstr (Xdg.snprintf path n text) ++ rest.
Proof.
  intros Hn Hpos Hcap. unfold strlen, Xdg.snprintf.
  destruct (n =? 0)%Z eqn:E; [apply Z.eqb_eq in E; lia|].
  rewrite CharsFacts.cstr_overwrite by (apply take_nul_free; exact Hn).
  pose proof (length_take text (Z.to_nat (n - 1))) as Hle.
  split; [|split].
  - unfold overwrite. rewrite !length_app, length_drop.
    simpl. lia.
  - lia.
  - exists (drop (Z.to_nat (n - 1)) text). symmetry. apply take_drop.
Qed.

(** X12: the three results of [get_xdg_path].  It returns 0 and leaves
    [errno] alone; or -1 with [errno] set to [ENAMETOOLONG] and the
    buffer untouched; or -2 with [errno] and the buffer untouched.  The
    result is -2 exactly when neither the named variable nor HOME is
    set. *)
Theorem get_xdg_path_result_taxonomy
        (PATH_MAX : Z) (path sub_dir : list ascii) (xdg_dir : string)
        (fallback_dir : list ascii) (env : gmap string (list ascii))
        (errno : Errno.t) :
  let r := Xdg.get_xdg_path PATH_MAX path sub_dir xdg_dir fallback_dir
                            env errno in
  ((r.1.1 = 0%Z /\ r.2 = errno)
   \/ (r.1.1 = (-1)%Z /\ r.2 = Errno.ENAMETOOLONG /\ r.1.2 = path)
   \/ (r.1.1 = (-2)%Z /\ r.2 = errno /\ r.1.2 = path))
  /\ (r.1.1 = (-2)%Z
      <-> env !! xdg_dir = None /\ env !! "HOME"%string = None).
Proof.
  cbv zeta. unfold Xdg.get_xdg_path, Xdg.getenv.
  destruct (env !! xdg_dir) as [xdg|].
  - destruct (_ >? _)%Z; cbn [fst snd].
    + split; [right; left; repeat split|].
      split; [discriminate | intros [[=] _]].
    + split; [left; repeat split|].
      split; [discriminate | intros [[=] _]].
  - destruct (env !! "HOME"%string) as [home|].
    + destruct (_ >? _)%Z; cbn [fst snd].
      * split; [right; left; repeat split|].
        split; [discriminate | intros [_ [=]]].
      * split; [left; repeat split|].
        split; [discriminate | intros [_ [=]]].
    + cbn [fst snd]. split; [right; right; repeat split|].
      split; [intros _; split; reflexivity | reflexivity].
Qed.

(** X13: the named variable comes first.  When it is set, the result
    depends neither on HOME, nor on any other variable, nor on the
    fallback directory. *)
Theorem get_xdg_path_prefers_named_variable
        (PATH_MAX : Z) (path sub_dir xdg : list ascii) (xdg_dir : string)
        (fallback_dir fallback_dir' : list ascii)
        (env env' : gmap string (list ascii)) (errno : Errno.t) :
  env !! xdg_dir = Some xdg -> env' !! xdg_dir = Some xdg ->
  Xdg.get_xdg_path PATH_MAX path sub_dir xdg_dir fallback_dir env errno
  = Xdg.get_xdg_path PATH_MAX path sub_dir xdg_dir fallback_dir' env' errno.
Proof.
  intros H H'. unfold Xdg.get_xdg_path, Xdg.getenv. rewrite H, H'.
  reflexivity.
Qed.

(** The same result with and without HOME. *)
Lemma get_xdg_path_prefers_named_variable_witness :
  Xdg.get_xdg_path 4096 (repeat NUL 4097) (lit "app") "XDG_DATA_HOME"
    (lit ".local/share")
    (<[ "HOME"%string := lit "/home/u" ]>
       {[ "XDG_DATA_HOME"%string := lit "/data" ]})
    Errno.E_NONE
  = Xdg.get_xdg_path 4096 (repeat NUL 4097) (lit "app") "XDG_DATA_HOME"
      (lit "elsewhere")
      {[ "XDG_DATA_HOME"%string := lit "/data" ]} Errno.E_NONE.
Proof.
  exact (get_xdg_path_prefers_named_variable
           4096 (repeat NUL 4097) (lit "app") (lit "/data") "XDG_DATA_HOME"
           (lit ".local/share") (lit "elsewhere")
           (<[ "HOME"%string := lit "/home/u" ]>
              {[ "XDG_DATA_HOME"%string := lit "/data" ]})
           {[ "XDG_DATA_HOME"%string := lit "/data" ]} Errno.E_NONE
           eq_refl eq_refl).
Defined.

(** X14: a composed path longer than [PATH_MAX], from the named variable
    or from HOME and the fallback directory, is refused: the call returns
    -1, sets [errno] to [ENAMETOOLONG] and does not write the buffer. *)
Theorem get_xdg_path_refuses_overlong
        (PATH_MAX : Z) (path sub_dir base text : list ascii)
        (xdg_dir : string) (fallback_dir : list ascii)
        (env : gmap string (list ascii)) (errno : Errno.t) :
  (0 < PATH_MAX < 2 ^ 64)%Z ->
  (env !! xdg_dir = Some base
   /\ text = cstr base ++ [SLASH] ++ cstr sub_dir)
  \/ (env !! xdg_dir = None /\ env !! "HOME"%string = Some base
      /\ text = cstr base ++ [SLASH] ++ cstr fallback_dir
                  ++ [SLASH] ++ cstr sub_dir) ->
  (PATH_MAX < Z.of_nat (length text) < 2 ^ 64)%Z ->
  Xdg.get_xdg_path PATH_MAX path sub_dir xdg_dir fallback_dir env errno
  = ((-1)%Z, path, Errno.ENAMETOOLONG).
Proof.
  intros HP Hsrc Hlen. unfold Xdg.get_xdg_path, Xdg.getenv.
  destruct Hsrc as [(Hx & ->) | (Hx & Hh & ->)].
  - rewrite Hx. rewrite XdgFacts.length_joined in Hlen.
    rewrite XdgFacts.size_check2 by lia.
    rewrite (XdgFacts.to_size_t_small PATH_MAX) by lia.
    destruct (Z.gtb_spec (strlen base + strlen sub_dir + 1) PATH_MAX);
      [reflexivity | lia].
  - rewrite Hx, Hh. rewrite XdgFacts.length_joined3 in Hlen.
    rewrite XdgFacts.size_check3 by lia.
    rewrite (XdgFacts.to_size_t_small PATH_MAX) by lia.
    destruct (Z.gtb_spec (strlen base + strlen fallback_dir
                            + strlen sub_dir + 2) PATH_MAX);
      [reflexivity | lia].
Qed.

(** With [PATH_MAX] = 16, /home/user/.config/app is too long. *)
Lemma get_xdg_path_refuses_overlong_witness :
  (0 < 16 < 2 ^ 64)%Z
  /\ Xdg.get_xdg_path 16 (repeat NUL 17) (lit "app") "XDG_CONFIG_HOME"
       (lit ".config") {[ "HOME"%string := lit "/home/user" ]} Errno.E_NONE
     = ((-1)%Z, repeat NUL 17, Errno.ENAMETOOLONG).
Proof.
  assert (HP : (0 < 16 < 2 ^ 64)%Z) by lia.
  split; [exact HP|].
  refine (get_xdg_path_refuses_overlong
            16 (repeat NUL 17) (lit "app") (lit "/home/user")
            (lit "/home/user/.config/app") "XDG_CONFIG_HOME" (lit ".config")
            {[ "HOME"%string := lit "/home/user" ]} Errno.E_NONE HP _ _).
  - right. split; [reflexivity|]. split; reflexivity.
  - vm_compute. split; reflexivity.
Defined.

(** X15: [get_xdg_path] never writes outside a buffer of at least
    [PATH_MAX] bytes, and when it returns 0 the buffer holds a terminated
    string of fewer than [PATH_MAX] characters. *)
Theorem get_xdg_path_stays_in_buffer
        (PATH_MAX : Z) (path sub_dir : list ascii) (xdg_dir : string)
        (fallback_dir : list ascii) (env : gmap string (list ascii))
        (errno : Errno.t) :
  (0 < PATH_MAX)%Z -> (PATH_MAX < 2 ^ 64)%Z ->
  (PATH_MAX <= Z.of_nat (length path))%Z ->
  let r := Xdg.get_xdg_path PATH_MAX path sub_dir xdg_dir fallback_dir
                            env errno in
  length r.1.2 = length path
  /\ (r.1.1 = 0%Z -> (strlen r.1.2 < PATH_MAX)%Z).
Proof.
  intros Hpos Hmax Hcap. cbv zeta. unfold Xdg.get_xdg_path, Xdg.getenv.
  destruct (env !! xdg_dir) as [xdg|].
  - destruct (_ >? _)%Z; cbn [fst snd]; [split; [reflexivity|discriminate]|].
    rewrite (XdgFacts.to_size_t_small PATH_MAX) by lia.
    destruct (snprintf_bounded path (cstr xdg ++ [SLASH] ++ cstr sub_dir)
                PATH_MAX (XdgFacts.joined_nul_free _ _) Hpos Hcap)
      as (Hl & Hs & _).
    split; [exact Hl | intros _; exact Hs].
  - destruct (env !! "HOME"%string) as [home|];
      [|cbn [fst snd]; split; [reflexivity|discriminate]].
    destruct (_ >? _)%Z; cbn [fst snd]; [split; [reflexivity|discriminate]|].
    rewrite (XdgFacts.to_size_t_small PATH_MAX) by lia.
    destruct (snprintf_bounded path
                (cstr home ++ [SLASH] ++ cstr fallback_dir
                   ++ [SLASH] ++ cstr sub_dir)
                PATH_MAX (XdgFacts.joined3_nul_free _ _ _) Hpos Hcap)
      as (Hl & Hs & _).
    split; [exact Hl | intros _; exact Hs].
Qed.

(** A buffer of [PATH_MAX] + 1 bytes keeps its size. *)
Lemma get_xdg_path_stays_in_buffer_witness :
  (0 < 4096)%Z /\ (4096 < 2 ^ 64)%Z
  /\ (4096 <= Z.of_nat (length (repeat NUL 4097)))%Z
  /\ let r := Xdg.get_xdg_path 4096 (repeat NUL 4097) (lit "app")
                "XDG_CONFIG_HOME" (lit ".config")
                {[ "HOME"%string := lit "/home/u" ]} Errno.E_NONE in
     length r.1.2 = length (repeat NUL 4097)
     /\ (r.1.1 = 0%Z -> (strlen r.1.2 < 4096)%Z).
Proof.
  assert (H1 : (0 < 4096)%Z) by lia.
  assert (H2 : (4096 < 2 ^ 64)%Z) by lia.
  assert (H3 : (4096 <= Z.of_nat (length (repeat NUL 4097)))%Z)
    by (rewrite repeat_length; lia).
  split; [exact H1|]. split; [exact H2|]. split; [exact H3|].
  exact (get_xdg_path_stays_in_buffer
           4096 (repeat NUL 4097) (lit "app") "XDG_CONFIG_HOME"
           (lit ".config") {[ "HOME"%string := lit "/home/u" ]}
           Errno.E_NONE H1 H2 H3).
Defined.

End XdgMore.

(** ** More on [mkpath] *)

Module MkpathMore.
Import Chars.

Local Arguments Ascii.eqb : simpl never.

Lemma errno_eqb_eq (a b : Errno.t) : Errno.eqb a b = true <-> a = b.
Proof. destruct a, b; simpl; split; congruence. Qed.

Lemma errno_eqb_neq (a b : Errno.t) : Errno.eqb a b = false <-> a <> b.
Proof. destruct a, b; simpl; split; congruence. Qed.

(** The string of a buffer cut short by a NUL is a prefix of the string
    of the buffer. *)
Lemma cstr_truncated_prefix (buf : list ascii) :
  forall i, exists rest, cstr buf = cstr (<[i := NUL]> buf) ++ rest.
Proof.
  induction buf as [|c buf IH]; intros i.
  - exists []. reflexivity.
  - destruct i as [|i]; simpl.
    + exists (if Ascii.eqb c NUL then [] else c :: cstr buf). reflexivity.
    + destruct (Ascii.eqb c NUL); [exists []; reflexivity|].
      destruct (IH i) as [rest Hr]. exists rest. simpl. congruence.
Qed.

Section WithFileSystem.

Variable FS : Type.
Variable mkdir : list ascii -> Z -> FS -> FS * option Errno.t.

Local Abbreviation walk_path := (Mkpath.walk_path FS mkdir).
Local Abbreviation mkpath := (Mkpath.mkpath FS mkdir).

(** [errno] along the loop: untouched or [EEXIST] when the loop is left,
    the error of the failing [mkdir] when it returns. *)
Lemma walk_path_errno (fuel : nat) :
  forall (i : nat) (st : Mkpath.state FS) (w : Mkpath.walk FS),
    walk_path fuel i st = Some w ->
    match w with
    | Mkpath.Left_loop _ st' =>
        Mkpath.errno FS st' = Mkpath.errno FS st
        \/ Mkpath.errno FS st' = Errno.EEXIST
    | Mkpath.Returned_false _ st' => Mkpath.errno FS st' <> Errno.EEXIST
    end.
Proof.
  induction fuel as [|fuel IH]; intros i st w; simpl; [discriminate|].
  destruct (Mkpath.path FS st !! i) as [c|]; [|discriminate].
  destruct (Ascii.eqb c NUL); [intros [= <-]; left; reflexivity|].
  destruct (negb (Ascii.eqb c SLASH)); [intros [= <-]; left; reflexivity|].
  destruct (mkdir _ _ _) as [fs1 [e|]].
  - destruct (Errno.eqb e Errno.EEXIST) eqn:Ee; simpl negb; cbv iota.
    + apply errno_eqb_eq in Ee. subst e. intros H. apply IH in H.
      destruct w; [|exact H]. simpl in H. right. destruct H; assumption.
    + apply errno_eqb_neq in Ee. intros [= <-]. exact Ee.
  - intros H. apply IH in H. destruct w; exact H.
Qed.

(** X16: what [mkpath] leaves in [errno], for any file system.  When it
    returns false, [errno] holds an error other than [EEXIST]; when it
    returns true, [errno] is as before the call or holds [EEXIST]. *)
Theorem mkpath_errno_contract (buf : list ascii) (disk : FS) (e0 : Errno.t)
        (b : bool) (st : Mkpath.state FS) :
  mkpath buf disk e0 = Some (b, st) ->
  if b
  then Mkpath.errno FS st = e0 \/ Mkpath.errno FS st = Errno.EEXIST
  else Mkpath.errno FS st <> Errno.EEXIST.
Proof.
  unfold Mkpath.mkpath.
  destruct (walk_path (length buf) 1 (Mkpath.mk_state FS buf disk e0))
    as [w|] eqn:Hw; [|discriminate].
  apply walk_path_errno in Hw. destruct w as [st1|st1]; simpl in Hw.
  - destruct (mkdir _ _ _) as [fs1 [e|]].
    + destruct (Errno.eqb e Errno.EEXIST) eqn:Ee; simpl negb; cbv iota;
        intros [= <- <-]; simpl.
      * apply errno_eqb_eq in Ee. right. exact Ee.
      * apply errno_eqb_neq in Ee. exact Ee.
    + intros [= <- <-]. simpl. exact Hw.
  - intros [= <- <-]. exact Hw.
Qed.

(** X17: for a path whose second character is not a separator, [mkpath]
    is one [mkdir] of the whole path with mode 0777, with [EEXIST] taken
    as success: no parent directory is created. *)
Theorem mkpath_is_single_mkdir (buf : list ascii) (c : ascii) (disk : FS)
        (e0 : Errno.t) :
  buf !! 1%nat = Some c -> c <> SLASH ->
  mkpath buf disk e0
  = Some (match mkdir (cstr buf) 511%Z disk with
          | (fs1, None) => (true, Mkpath.mk_state FS buf fs1 e0)
          | (fs1, Some e) =>
              (Errno.eqb e Errno.EEXIST, Mkpath.mk_state FS buf fs1 e)
          end).
Proof.
  intros Hc Hs. unfold Mkpath.mkpath.
  rewrite (MkpathFacts.walk_path_breaks_at_once FS mkdir buf c disk e0 Hc Hs).
  cbn [Mkpath.path Mkpath.fs Mkpath.errno].
  change (Z.lor (Z.lor Mkpath.S_IRWXU Mkpath.S_IRWXG) Mkpath.S_IRWXO)
    with 511%Z.
  destruct (mkdir (cstr buf) 511%Z disk) as [fs1 [e|]]; [|reflexivity].
  destruct (Errno.eqb e Errno.EEXIST); reflexivity.
Qed.

End WithFileSystem.

(** An [mkdir] that reports [EACCES]: false and [EACCES]. *)
Lemma mkpath_errno_contract_witness :
  exists st,
    Mkpath.mkpath unit (fun _ _ u => (u, Some Errno.EACCES))
                  (lit "/srv/x" ++ [NUL]) tt Errno.E_NONE
    = Some (false, st)
    /\ Mkpath.errno unit st <> Errno.EEXIST.
Proof.
  exists (Mkpath.mk_state unit (lit "/srv/x" ++ [NUL]) tt Errno.EACCES).
  assert (H : Mkpath.mkpath unit (fun _ _ u => (u, Some Errno.EACCES))
                (lit "/srv/x" ++ [NUL]) tt Errno.E_NONE
              = Some (false, Mkpath.mk_state unit (lit "/srv/x" ++ [NUL]) tt
                                             Errno.EACCES))
    by (vm_compute; reflexivity).
  split; [exact H|].
  exact (mkpath_errno_contract unit (fun _ _ u => (u, Some Errno.EACCES))
           (lit "/srv/x" ++ [NUL]) tt Errno.E_NONE false _ H).
Defined.

(** [/tmp/x] where [/tmp] exists: the one [mkdir] creates [x]. *)
Lemma mkpath_is_single_mkdir_witness :
  (lit "/tmp/x" ++ [NUL]) !! 1%nat = Some "t"%char
  /\ "t"%char <> SLASH
  /\ Mkpath.mkpath _ DirFs.mkdir (lit "/tmp/x" ++ [NUL])
                   {[ ["tmp"%string] ]} Errno.E_NONE
     = Some (match DirFs.mkdir (cstr (lit "/tmp/x" ++ [NUL])) 511%Z
                               {[ ["tmp"%string] ]} with
             | (fs1, None) =>
                 (true, Mkpath.mk_state _ (lit "/tmp/x" ++ [NUL]) fs1
                                        Errno.E_NONE)
             | (fs1, Some e) =>
                 (Errno.eqb e Errno.EEXIST,
                  Mkpath.mk_state _ (lit "/tmp/x" ++ [NUL]) fs1 e)
             end).
Proof.
  assert (H1 : (lit "/tmp/x" ++ [NUL]) !! 1%nat = Some "t"%char)
    by reflexivity.
  assert (H2 : "t"%char <> SLASH) by discriminate.
  split; [exact H1|]. split; [exact H2|].
  exact (mkpath_is_single_mkdir _ DirFs.mkdir (lit "/tmp/x" ++ [NUL])
           "t"%char {[ ["tmp"%string] ]} Errno.E_NONE H1 H2).
Defined.

(** The calls made by the loop on the recording file system: each one
    with mode 0777 and a prefix of the path. *)
Lemma walk_path_calls (answer : list ascii -> option Errno.t) (fuel : nat) :
  forall (i : nat) (st : Mkpath.state (list (list ascii * Z)))
         (w : Mkpath.walk (list (list ascii * Z))),
    Mkpath.walk_path _ (TraceFs.mkdir answer) fuel i st = Some w ->
    exists new,
      Mkpath.fs _ (Mkpath.state_of _ w) = Mkpath.fs _ st ++ new
      /\ Forall (fun call => call.2 = 511%Z
                             /\ exists rest,
                                 cstr (Mkpath.path _ st) = call.1 ++ rest)
                new
      /\ match w with
         | Mkpath.Left_loop _ _ => True
         | Mkpath.Returned_false _ _ => new <> []
         end.
Proof.
  induction fuel as [|fuel IH]; intros i st w; simpl; [discriminate|].
  destruct (Mkpath.path _ st !! i) as [c|] eqn:Hc; [|discriminate].
  destruct (Ascii.eqb c NUL).
  { intros [= <-]. exists []. simpl. rewrite app_nil_r.
    split; [reflexivity|]. split; constructor. }
  destruct (Ascii.eqb c SLASH) eqn:Hs; simpl negb; cbv iota.
  2:{ intros [= <-]. exists []. simpl. rewrite app_nil_r.
      split; [reflexivity|]. split; constructor. }
  apply Ascii.eqb_eq in Hs. subst c.
  rewrite (MkpathFacts.truncate_restore _ _ Hc).
  assert (Hcall : (fun call : list ascii * Z =>
                     call.2 = 511%Z
                     /\ exists rest, cstr (Mkpath.path _ st) = call.1 ++ rest)
                    (cstr (<[i := NUL]> (Mkpath.path _ st)), 511%Z)).
  { split; [reflexivity|]. apply cstr_truncated_prefix. }
  destruct (answer (cstr (<[i := NUL]> (Mkpath.path _ st)))) as [e|].
  - destruct (negb (Errno.eqb e Errno.EEXIST)).
    + intros [= <-]. eexists. split; [reflexivity|].
      split; [constructor; [exact Hcall | constructor] | discriminate].
    + intros H. apply IH in H. destruct H as (new & Hf & Hall & Hne).
      cbn [Mkpath.fs Mkpath.path] in Hf, Hall.
      exists ((cstr (<[i := NUL]> (Mkpath.path _ st)), 511%Z) :: new).
      split; [rewrite Hf, <- app_assoc; reflexivity|].
      split; [constructor; [exact Hcall | exact Hall]|].
      destruct w; [exact I | discriminate].
  - intros H. apply IH in H. destruct H as (new & Hf & Hall & Hne).
    cbn [Mkpath.fs Mkpath.path] in Hf, Hall.
    exists ((cstr (<[i := NUL]> (Mkpath.path _ st)), 511%Z) :: new).
    split; [rewrite Hf, <- app_assoc; reflexivity|].
    split; [constructor; [exact Hcall | exact Hall]|].
    destruct w; [exact I | discriminate].
Qed.

(** X18: whatever the results of the [mkdir] calls, every call [mkpath]
    makes has mode 0777 and a path that is a prefix of the caller's path;
    at least one call is made, and when [mkpath] returns true the last
    call is the one for the whole path. *)
Theorem mkpath_calls_are_prefixes_with_mode_0777
        (answer : list ascii -> option Errno.t) (buf : list ascii)
        (e0 : Errno.t) (b : bool)
        (st : Mkpath.state (list (list ascii * Z))) :
  Mkpath.mkpath _ (TraceFs.mkdir answer) buf [] e0 = Some (b, st) ->
  Forall (fun call => call.2 = 511%Z
                      /\ exists rest, cstr buf = call.1 ++ rest)
         (Mkpath.fs _ st)
  /\ Mkpath.fs _ st <> []
  /\ (b = true ->
      exists earlier, Mkpath.fs _ st = earlier ++ [(cstr buf, 511%Z)]).
Proof.
  unfold Mkpath.mkpath.
  destruct (Mkpath.walk_path _ (TraceFs.mkdir answer) (length buf) 1
              (Mkpath.mk_state _ buf [] e0)) as [w|] eqn:Hw; [|discriminate].
  pose proof (MkpathFacts.walk_path_keeps_buffer _ _ _ _ _ _ Hw) as Hbuf.
  apply walk_path_calls in Hw. destruct Hw as (new & Hf & Hall & Hne).
  cbn [Mkpath.fs Mkpath.path app] in Hf, Hall, Hbuf.
  destruct w as [st1|st1]; cbn [Mkpath.state_of] in Hf, Hbuf.
  - unfold TraceFs.mkdir at 1.
    change (Z.lor (Z.lor Mkpath.S_IRWXU Mkpath.S_IRWXG) Mkpath.S_IRWXO)
      with 511%Z.
    assert (Hlast : Forall (fun call : list ascii * Z =>
                              call.2 = 511%Z
                              /\ exists rest, cstr buf = call.1 ++ rest)
                           (Mkpath.fs _ st1 ++ [(cstr (Mkpath.path _ st1),
                                                 511%Z)])).
    { rewrite Hf. apply Forall_app. split; [exact Hall|].
      constructor; [|constructor]. split; [reflexivity|].
      exists []. rewrite Hbuf, app_nil_r. reflexivity. }
    destruct (answer (cstr (Mkpath.path _ st1))) as [e|].
    + destruct (negb (Errno.eqb e Errno.EEXIST)); intros [= <- <-];
        cbn [Mkpath.fs]; (split; [exact Hlast|]);
        (split; [intros H; apply app_eq_nil in H; destruct H; discriminate|]).
      * discriminate.
      * intros _. exists (Mkpath.fs _ st1). rewrite Hbuf. reflexivity.
    + intros [= <- <-]. cbn [Mkpath.fs]. split; [exact Hlast|].
      split; [intros H; apply app_eq_nil in H; destruct H; discriminate|].
      intros _. exists (Mkpath.fs _ st1). rewrite Hbuf. reflexivity.
  - intros [= <- <-]. split; [rewrite Hf; exact Hall|].
    split; [|discriminate].
    rewrite Hf. exact Hne.
Qed.

(** Every [mkdir] succeeds on [//srv]: two calls, [/] and [//srv]. *)
Lemma mkpath_calls_are_prefixes_with_mode_0777_witness :
  exists st,
    Mkpath.mkpath _ (TraceFs.mkdir (fun _ => None)) (lit "//srv" ++ [NUL])
                  [] Errno.E_NONE
    = Some (true, st)
    /\ Mkpath.fs _ st = [(lit "/", 511%Z); (lit "//srv", 511%Z)]
    /\ Forall (fun call => call.2 = 511%Z
                           /\ exists rest,
                               cstr (lit "//srv" ++ [NUL]) = call.1 ++ rest)
              (Mkpath.fs _ st).
Proof.
  exists (Mkpath.mk_state _ (lit "//srv" ++ [NUL])
                          [(lit "/", 511%Z); (lit "//srv", 511%Z)]
                          Errno.E_NONE).
  assert (H : Mkpath.mkpath _ (TraceFs.mkdir (fun _ => None))
                (lit "//srv" ++ [NUL]) [] Errno.E_NONE
              = Some (true,
                      Mkpath.mk_state _ (lit "//srv" ++ [NUL])
                        [(lit "/", 511%Z); (lit "//srv", 511%Z)]
                        Errno.E_NONE))
    by (vm_compute; reflexivity).
  split; [exact H|]. split; [reflexivity|].
  exact (proj1 (mkpath_calls_are_prefixes_with_mode_0777
                  (fun _ => None) (lit "//srv" ++ [NUL]) Errno.E_NONE true
                  _ H)).
Defined.

(** *** On the file system of directories *)

Lemma is_dir_mono (disk disk2 : gset (list string)) (cs : list string) :
  disk ⊆ disk2 -> DirFs.is_dir disk cs = true -> DirFs.is_dir disk2 cs = true.
Proof.
  intros Hsub. destruct cs as [|c cs]; [reflexivity|]. simpl.
  rewrite !bool_decide_eq_true. intros H. apply Hsub. exact H.
Qed.

(** A call of [mkdir] removes nothing; after a call that succeeds or
    reports [EEXIST] the directory exists. *)
Lemma dirfs_mkdir_outcome (p : list ascii) (mode : Z)
      (disk disk1 : gset (list string)) (r : option Errno.t) :
  DirFs.mkdir p mode disk = (disk1, r) ->
  disk ⊆ disk1
  /\ (r = None \/ r = Some Errno.EEXIST ->
      p <> [] /\ DirFs.is_dir disk1 (DirFs.components p) = true).
Proof.
  unfold DirFs.mkdir. destruct p as [|c p].
  - intros [= <- <-]. split; [reflexivity|]. intros [H|H]; discriminate H.
  - destruct (DirFs.is_dir disk (DirFs.components (c :: p))) eqn:Hd.
    + intros [= <- <-]. split; [reflexivity|]. intros _.
      split; [discriminate | exact Hd].
    + destruct (DirFs.is_dir disk (removelast (DirFs.components (c :: p)))).
      * intros [= <- <-]. split; [apply union_subseteq_r|]. intros _.
        split; [discriminate|].
        destruct (DirFs.components (c :: p)) as [|x xs]; [reflexivity|].
        simpl. apply bool_decide_eq_true.
        apply elem_of_union_l, elem_of_singleton. reflexivity.
      * intros [= <- <-]. split; [reflexivity|]. intros [H|H]; discriminate H.
Qed.

Lemma dirfs_mkdir_existing (p : list ascii) (mode : Z)
      (disk : gset (list string)) :
  p <> [] -> DirFs.is_dir disk (DirFs.components p) = true ->
  DirFs.mkdir p mode disk = (disk, Some Errno.EEXIST).
Proof.
  intros Hp Hd. unfold DirFs.mkdir. destruct p; [congruence|].
  rewrite Hd. reflexivity.
Qed.

(** The loop removes no directory. *)
Lemma walk_path_grows (fuel : nat) :
  forall (i : nat) (st : Mkpath.state (gset (list string)))
         (w : Mkpath.walk (gset (list string))),
    Mkpath.walk_path _ DirFs.mkdir fuel i st = Some w ->
    Mkpath.fs _ st ⊆ Mkpath.fs _ (Mkpath.state_of _ w).
Proof.
  induction fuel as [|fuel IH]; intros i st w; simpl; [discriminate|].
  destruct (Mkpath.path _ st !! i) as [c|]; [|discriminate].
  destruct (Ascii.eqb c NUL); [intros [= <-]; reflexivity|].
  destruct (negb (Ascii.eqb c SLASH)); [intros [= <-]; reflexivity|].
  destruct (DirFs.mkdir _ _ _) as [fs1 r] eqn:Hm.
  apply dirfs_mkdir_outcome in Hm. destruct Hm as [Hsub _].
  destruct r as [e|].
  - destruct (negb (Errno.eqb e Errno.EEXIST)).
    + intros [= <-]. exact Hsub.
    + intros H. apply IH in H. cbn [Mkpath.fs] in H.
      exact (transitivity Hsub H).
  - intros H. apply IH in H. cbn [Mkpath.fs] in H.
    exact (transitivity Hsub H).
Qed.

(** Once the loop was left without returning, it is left in the same
    way on any file system that holds the directories it made, and it
    changes nothing there. *)
Lemma walk_path_again (fuel : nat) :
  forall (i : nat) (st st' : Mkpath.state (gset (list string))),
    Mkpath.walk_path _ DirFs.mkdir fuel i st
    = Some (Mkpath.Left_loop _ st') ->
    forall (disk2 : gset (list string)) (e2 : Errno.t),
      Mkpath.fs _ st' ⊆ disk2 ->
      exists e2',
        Mkpath.walk_path _ DirFs.mkdir fuel i
                         (Mkpath.mk_state _ (Mkpath.path _ st) disk2 e2)
        = Some (Mkpath.Left_loop _
                  (Mkpath.mk_state _ (Mkpath.path _ st) disk2 e2')).
Proof.
  induction fuel as [|fuel IH]; intros i st st'; simpl; [discriminate|].
  destruct (Mkpath.path _ st !! i) as [c|] eqn:Hc; [|discriminate].
  destruct (Ascii.eqb c NUL); [intros _ disk2 e2 _; eauto|].
  destruct (Ascii.eqb c SLASH) eqn:Hs; simpl negb; cbv iota;
    [|intros _ disk2 e2 _; eauto].
  apply Ascii.eqb_eq in Hs. subst c.
  rewrite (MkpathFacts.truncate_restore _ _ Hc).
  destruct (DirFs.mkdir _ _ (Mkpath.fs _ st)) as [fs1 r] eqn:Hm.
  apply dirfs_mkdir_outcome in Hm. destruct Hm as [_ Hok].
  assert (Hstep : forall e,
             Mkpath.walk_path _ DirFs.mkdir fuel (S i)
                              (Mkpath.mk_state _ (Mkpath.path _ st) fs1 e)
             = Some (Mkpath.Left_loop _ st') ->
             r = None \/ r = Some Errno.EEXIST ->
             forall disk2 e2, Mkpath.fs _ st' ⊆ disk2 ->
             exists e2',
               (let '(fs2, r2) :=
                  DirFs.mkdir (cstr (<[i := NUL]> (Mkpath.path _ st)))
                    (Z.lor (Z.lor Mkpath.S_IRWXU Mkpath.S_IRWXG)
                           Mkpath.S_IRWXO) disk2 in
                match r2 with
                | Some e3 =>
                    if negb (Errno.eqb e3 Errno.EEXIST)
                    then Some (Mkpath.Returned_false _
                                 (Mkpath.mk_state _ (Mkpath.path _ st) fs2 e3))
                    else Mkpath.walk_path _ DirFs.mkdir fuel (S i)
                           (Mkpath.mk_state _ (Mkpath.path _ st) fs2 e3)
                | None =>
                    Mkpath.walk_path _ DirFs.mkdir fuel (S i)
                      (Mkpath.mk_state _ (Mkpath.path _ st) fs2 e2)
                end)
               = Some (Mkpath.Left_loop _
                         (Mkpath.mk_state _ (Mkpath.path _ st) disk2 e2'))).
  { intros e Hrun Hr disk2 e2 Hsub.
    destruct (Hok Hr) as [Hp Hd].
    pose proof (walk_path_grows _ _ _ _ Hrun) as Hg.
    cbn [Mkpath.fs Mkpath.state_of] in Hg.
    rewrite (dirfs_mkdir_existing _ _ disk2 Hp
               (is_dir_mono fs1 disk2 _
                  (transitivity (y := Mkpath.fs _ st') Hg Hsub) Hd)).
    cbn [Errno.eqb negb].
    exact (IH _ _ _ Hrun disk2 Errno.EEXIST Hsub). }
  destruct r as [e|].
  - destruct (Errno.eqb e Errno.EEXIST) eqn:Ee; simpl negb; cbv iota;
      [|discriminate].
    apply errno_eqb_eq in Ee. subst e. intros Hrun disk2 e2 Hsub.
    apply (Hstep Errno.EEXIST Hrun (or_intror eq_refl) disk2 e2 Hsub).
  - intros Hrun disk2 e2 Hsub.
    apply (Hstep (Mkpath.errno _ st) Hrun (or_introl eq_refl) disk2 e2 Hsub).
Qed.

(** After a call that returned true the whole path is a directory. *)
Lemma mkpath_true_means_directory_exists_aux
      (buf : list ascii) (disk : gset (list string)) (e0 : Errno.t)
      (st : Mkpath.state (gset (list string))) :
  Mkpath.mkpath _ DirFs.mkdir buf disk e0 = Some (true, st) ->
  cstr buf <> []
  /\ DirFs.is_dir (Mkpath.fs _ st) (DirFs.components (cstr buf)) = true.
Proof.
  unfold Mkpath.mkpath.
  destruct (Mkpath.walk_path _ DirFs.mkdir (length buf) 1
              (Mkpath.mk_state _ buf disk e0)) as [w|] eqn:Hw; [|discriminate].
  pose proof (MkpathFacts.walk_path_keeps_buffer _ _ _ _ _ _ Hw) as Hbuf.
  cbn [Mkpath.path] in Hbuf.
  destruct w as [st1|st1]; cbn [Mkpath.state_of] in Hbuf; [|discriminate].
  destruct (DirFs.mkdir _ _ _) as [fs1 r] eqn:Hm.
  apply dirfs_mkdir_outcome in Hm. destruct Hm as [_ Hok].
  rewrite Hbuf in Hok.
  destruct r as [e|].
  - destruct (Errno.eqb e Errno.EEXIST) eqn:Ee; simpl negb; cbv iota;
      [|discriminate].
    intros [= <-]. cbn [Mkpath.fs].
    apply errno_eqb_eq in Ee. subst e. apply Hok. right. reflexivity.
  - intros [= <-]. cbn [Mkpath.fs]. apply Hok. left. reflexivity.
Qed.

(** X19: on the file system of directories, [mkpath] removes no
    directory, and when it returns true the directory named by the whole
    path exists afterwards. *)
Theorem mkpath_true_means_directory_exists
        (buf : list ascii) (disk : gset (list string)) (e0 : Errno.t)
        (b : bool) (st : Mkpath.state (gset (list string))) :
  Mkpath.mkpath _ DirFs.mkdir buf disk e0 = Some (b, st) ->
  disk ⊆ Mkpath.fs _ st
  /\ (b = true ->
      cstr buf <> []
      /\ DirFs.is_dir (Mkpath.fs _ st) (DirFs.components (cstr buf)) = true).
Proof.
  unfold Mkpath.mkpath.
  destruct (Mkpath.walk_path _ DirFs.mkdir (length buf) 1
              (Mkpath.mk_state _ buf disk e0)) as [w|] eqn:Hw; [|discriminate].
  pose proof (MkpathFacts.walk_path_keeps_buffer _ _ _ _ _ _ Hw) as Hbuf.
  apply walk_path_grows in Hw. cbn [Mkpath.fs Mkpath.path] in Hw, Hbuf.
  destruct w as [st1|st1]; cbn [Mkpath.state_of] in Hw, Hbuf.
  - destruct (DirFs.mkdir _ _ _) as [fs1 r] eqn:Hm.
    apply dirfs_mkdir_outcome in Hm. destruct Hm as [Hsub Hok].
    rewrite Hbuf in Hok.
    destruct r as [e|].
    + destruct (Errno.eqb e Errno.EEXIST) eqn:Ee; simpl negb; cbv iota;
        intros [= <- <-]; cbn [Mkpath.fs];
        (split; [exact (transitivity Hw Hsub)|]); [|discriminate].
      apply errno_eqb_eq in Ee. subst e. intros _.
      apply Hok. right. reflexivity.
    + intros [= <- <-]. cbn [Mkpath.fs].
      split; [exact (transitivity Hw Hsub)|].
      intros _. apply Hok. left. reflexivity.
  - intros [= <- <-]. split; [exact Hw | discriminate].
Qed.

(** X20: on the file system of directories, [mkpath] is idempotent: after
    a call that returned true, a second call on the same path returns
    true, changes nothing on the file system, and leaves [EEXIST] in
    [errno]. *)
Theorem mkpath_twice
        (buf : list ascii) (disk : gset (list string)) (e0 e1 : Errno.t)
        (st : Mkpath.state (gset (list string))) :
  Mkpath.mkpath _ DirFs.mkdir buf disk e0 = Some (true, st) ->
  Mkpath.mkpath _ DirFs.mkdir buf (Mkpath.fs _ st) e1
  = Some (true, Mkpath.mk_state _ buf (Mkpath.fs _ st) Errno.EEXIST).
Proof.
  intros Hrun.
  destruct (mkpath_true_means_directory_exists_aux buf disk e0 st Hrun)
    as (Hne & Hd).
  revert Hrun. unfold Mkpath.mkpath.
  destruct (Mkpath.walk_path _ DirFs.mkdir (length buf) 1
              (Mkpath.mk_state _ buf disk e0)) as [w|] eqn:Hw; [|discriminate].
  destruct w as [st1|st1]; [|discriminate].
  intros Hfin.
  assert (Hsub : Mkpath.fs _ st1 ⊆ Mkpath.fs _ st).
  { destruct (DirFs.mkdir _ _ (Mkpath.fs _ st1)) as [fs1 r] eqn:Hm.
    apply dirfs_mkdir_outcome in Hm. destruct Hm as [Hs _].
    destruct r as [e|].
    - destruct (negb (Errno.eqb e Errno.EEXIST)); [discriminate Hfin|].
      injection Hfin as Hst. subst st. exact Hs.
    - injection Hfin as Hst. subst st. exact Hs. }
  destruct (walk_path_again _ _ _ _ Hw (Mkpath.fs _ st) e1 Hsub) as [e2 Hw2].
  cbn [Mkpath.path] in Hw2. rewrite Hw2. cbn [Mkpath.path Mkpath.fs].
  rewrite (dirfs_mkdir_existing _ _ _ Hne Hd). reflexivity.
Qed.

(** [/tmp/x] with [/tmp] in place: [x] is created. *)
Lemma mkpath_true_means_directory_exists_witness :
  exists st,
    Mkpath.mkpath _ DirFs.mkdir (lit "/tmp/x" ++ [NUL])
                  {[ ["tmp"%string] ]} Errno.E_NONE
    = Some (true, st)
    /\ {[ ["tmp"%string] ]} ⊆ Mkpath.fs _ st
    /\ DirFs.is_dir (Mkpath.fs _ st)
                    (DirFs.components (cstr (lit "/tmp/x" ++ [NUL]))) = true.
Proof.
  exists (Mkpath.mk_state _ (lit "/tmp/x" ++ [NUL])
            ({[ ["tmp"%string; "x"%string] ]} ∪ {[ ["tmp"%string] ]})
            Errno.E_NONE).
  assert (H : Mkpath.mkpath _ DirFs.mkdir (lit "/tmp/x" ++ [NUL])
                {[ ["tmp"%string] ]} Errno.E_NONE
              = Some (true,
                      Mkpath.mk_state _ (lit "/tmp/x" ++ [NUL])
                        ({[ ["tmp"%string; "x"%string] ]}
                           ∪ {[ ["tmp"%string] ]})
                        Errno.E_NONE))
    by (vm_compute; reflexivity).
  split; [exact H|].
  destruct (mkpath_true_means_directory_exists _ _ _ _ _ H) as [Hsub Hd].
  split; [exact Hsub | exact (proj2 (Hd eq_refl))].
Defined.

(** The same call a second time. *)
Lemma mkpath_twice_witness :
  exists st,
    Mkpath.mkpath _ DirFs.mkdir (lit "/tmp/x" ++ [NUL])
                  {[ ["tmp"%string] ]} Errno.E_NONE
    = Some (true, st)
    /\ Mkpath.mkpath _ DirFs.mkdir (lit "/tmp/x" ++ [NUL])
                     (Mkpath.fs _ st) Errno.E_NONE
       = Some (true,
               Mkpath.mk_state _ (lit "/tmp/x" ++ [NUL]) (Mkpath.fs _ st)
                               Errno.EEXIST).
Proof.
  exists (Mkpath.mk_state _ (lit "/tmp/x" ++ [NUL])
            ({[ ["tmp"%string; "x"%string] ]} ∪ {[ ["tmp"%string] ]})
            Errno.E_NONE).
  assert (H : Mkpath.mkpath _ DirFs.mkdir (lit "/tmp/x" ++ [NUL])
                {[ ["tmp"%string] ]} Errno.E_NONE
              = Some (true,
                      Mkpath.mk_state _ (lit "/tmp/x" ++ [NUL])
                        ({[ ["tmp"%string; "x"%string] ]}
                           ∪ {[ ["tmp"%string] ]})
                        Errno.E_NONE))
    by (vm_compute; reflexivity).
  split; [exact H|].
  exact (mkpath_twice _ _ Errno.E_NONE Errno.E_NONE _ H).
Defined.

End MkpathMore.

(** ** More on the signal-handler installers *)

Module SignalsMore.

(** An ignored signal is passed over, whatever the loop does before and
    after it. *)
Lemma install_keeps_ignored (sigs : list Z) :
  forall (act : Signals.sigaction_t) (tbl : gmap Z Signals.sigaction_t)
         (sig : Z),
    Signals.is_ign (Signals.sa_handler (Signals.current tbl sig)) = true ->
    Signals.install sigs act tbl !! sig = tbl !! sig.
Proof.
  induction sigs as [|s sigs IH]; intros act tbl sig Hign; simpl;
    [reflexivity|].
  destruct (decide (s = sig)) as [->|Hne].
  - rewrite Hign. cbn [negb]. apply IH. exact Hign.
  - destruct (negb (Signals.is_ign
                      (Signals.sa_handler (Signals.current tbl s)))).
    + rewrite IH.
      * apply lookup_insert_ne. exact Hne.
      * unfold Signals.current. rewrite lookup_insert_ne by exact Hne.
        exact Hign.
    + apply IH. exact Hign.
Qed.

(** An entry of the table is kept, or replaced by one that carries the
    handler and the flags of [act] and a mask made of the signal itself
    and of signals of the list. *)
Lemma install_entry_shape (sigs : list Z) :
  forall (act : Signals.sigaction_t) (tbl : gmap Z Signals.sigaction_t)
         (sig : Z) (a0 : Signals.sigaction_t),
    tbl !! sig = Some a0 ->
    exists a,
      Signals.install sigs act tbl !! sig = Some a
      /\ (a = a0
          \/ (Signals.sa_handler a = Signals.sa_handler act
              /\ Signals.sa_flags a = Signals.sa_flags act
              /\ sig ∈ Signals.sa_mask a
              /\ forall x, x ∈ Signals.sa_mask a ->
                           x ∈ Signals.sa_mask act \/ In x sigs)).
Proof.
  induction sigs as [|s sigs IH]; intros act tbl sig a0 Hl; simpl.
  - exists a0. split; [exact Hl | left; reflexivity].
  - destruct (negb (Signals.is_ign
                      (Signals.sa_handler (Signals.current tbl s)))).
    + set (act' := Signals.mk_sigaction (Signals.sa_handler act)
                     (Signals.sa_flags act) ({[s]} ∪ Signals.sa_mask act)).
      assert (Hconv : forall a,
                 (Signals.sa_handler a = Signals.sa_handler act'
                  /\ Signals.sa_flags a = Signals.sa_flags act'
                  /\ sig ∈ Signals.sa_mask a
                  /\ forall x, x ∈ Signals.sa_mask a ->
                               x ∈ Signals.sa_mask act' \/ In x sigs) ->
                 Signals.sa_handler a = Signals.sa_handler act
                 /\ Signals.sa_flags a = Signals.sa_flags act
                 /\ sig ∈ Signals.sa_mask a
                 /\ forall x, x ∈ Signals.sa_mask a ->
                              x ∈ Signals.sa_mask act \/ In x (s :: sigs)).
      { intros a (Hh & Hf & Hm & Hsub). repeat split; try assumption.
        intros x Hx. destruct (Hsub x Hx) as [H|H]; [|right; right; exact H].
        cbn [act' Signals.sa_mask] in H.
        apply elem_of_union in H. destruct H as [H|H]; [|left; exact H].
        apply elem_of_singleton in H. right. left. congruence. }
      destruct (decide (s = sig)) as [->|Hne].
      * destruct (IH act' (<[sig := act']> tbl) sig act'
                     (lookup_insert_eq _ _ _)) as (a & Ha & Hs).
        exists a. split; [exact Ha|]. right.
        destruct Hs as [->|Hs]; [|apply Hconv; exact Hs].
        apply Hconv. repeat split.
        -- cbn [act' Signals.sa_mask].
           apply elem_of_union_l, elem_of_singleton. reflexivity.
        -- intros x Hx. left. exact Hx.
      * destruct (IH act' (<[s := act']> tbl) sig a0) as (a & Ha & Hs).
        { rewrite lookup_insert_ne by exact Hne. exact Hl. }
        exists a. split; [exact Ha|].
        destruct Hs as [->|Hs]; [left; reflexivity|].
        right. apply Hconv. exact Hs.
    + destruct (IH act tbl sig a0 Hl) as (a & Ha & Hs).
      exists a. split; [exact Ha|].
      destruct Hs as [->|(Hh & Hf & Hm & Hsub)]; [left; reflexivity|].
      right. repeat split; try assumption.
      intros x Hx. destruct (Hsub x Hx) as [H|H]; [left; exact H|].
      right. right. exact H.
Qed.

(** A signal of the list that is not ignored gets an entry with the
    handler and the flags of [act]. *)
Lemma install_new_entry (sigs : list Z) :
  forall (act : Signals.sigaction_t) (tbl : gmap Z Signals.sigaction_t)
         (sig : Z),
    In sig sigs ->
    Signals.is_ign (Signals.sa_handler (Signals.current tbl sig)) = false ->
    exists a,
      Signals.install sigs act tbl !! sig = Some a
      /\ Signals.sa_handler a = Signals.sa_handler act
      /\ Signals.sa_flags a = Signals.sa_flags act
      /\ sig ∈ Signals.sa_mask a
      /\ forall x, x ∈ Signals.sa_mask a ->
                   x ∈ Signals.sa_mask act \/ In x sigs.
Proof.
  induction sigs as [|s sigs IH]; intros act tbl sig Hin Hign; [destruct Hin|].
  simpl.
  set (act' := Signals.mk_sigaction (Signals.sa_handler act)
                 (Signals.sa_flags act) ({[s]} ∪ Signals.sa_mask act)).
  assert (Hconv : forall a,
             (forall x, x ∈ Signals.sa_mask a ->
                        x ∈ Signals.sa_mask act' \/ In x sigs) ->
             forall x, x ∈ Signals.sa_mask a ->
                       x ∈ Signals.sa_mask act \/ In x (s :: sigs)).
  { intros a Hsub x Hx. destruct (Hsub x Hx) as [H|H]; [|right; right; exact H].
    cbn [act' Signals.sa_mask] in H.
    apply elem_of_union in H. destruct H as [H|H]; [|left; exact H].
    apply elem_of_singleton in H. right. left. congruence. }
  destruct (decide (s = sig)) as [->|Hne].
  - rewrite Hign. cbn [negb]. fold act'.
    destruct (install_entry_shape sigs act' (<[sig := act']> tbl) sig act'
                (lookup_insert_eq _ _ _)) as (a & Ha & Hs).
    exists a. split; [exact Ha|].
    destruct Hs as [->|(Hh & Hf & Hm & Hsub)].
    + repeat split.
      * cbn [act' Signals.sa_mask].
        apply elem_of_union_l, elem_of_singleton. reflexivity.
      * apply Hconv. intros x Hx. left. exact Hx.
    + repeat split; try assumption. apply Hconv. exact Hsub.
  - destruct Hin as [Hin|Hin]; [congruence|].
    destruct (negb (Signals.is_ign
                      (Signals.sa_handler (Signals.current tbl s)))).
    + fold act'.
      destruct (IH act' (<[s := act']> tbl) sig Hin) as (a & Ha & Hh & Hf & Hm & Hsub).
      { unfold Signals.current. rewrite lookup_insert_ne by exact Hne.
        exact Hign. }
      exists a. repeat split; try assumption. apply Hconv. exact Hsub.
    + destruct (IH act tbl sig Hin Hign) as (a & Ha & Hh & Hf & Hm & Hsub).
      exists a. repeat split; try assumption.
      intros x Hx. destruct (Hsub x Hx) as [H|H]; [left; exact H|].
      right. right. exact H.
Qed.

(** The loop and a store on a signal outside the list commute. *)
Lemma install_insert_comm (sigs : list Z) :
  forall (act x : Signals.sigaction_t) (tbl : gmap Z Signals.sigaction_t)
         (sig : Z),
    ~ In sig sigs ->
    Signals.install sigs act (<[sig := x]> tbl)
    = <[sig := x]> (Signals.install sigs act tbl).
Proof.
  induction sigs as [|s sigs IH]; intros act x tbl sig Hn; simpl;
    [reflexivity|].
  assert (Hs : sig <> s) by (intros ->; apply Hn; left; reflexivity).
  assert (Hr : ~ In sig sigs) by (intros H; apply Hn; right; exact H).
  unfold Signals.current at 1. rewrite lookup_insert_ne by exact Hs.
  fold (Signals.current tbl s).
  destruct (negb (Signals.is_ign
                    (Signals.sa_handler (Signals.current tbl s)))).
  - rewrite insert_insert_ne by congruence. apply IH. exact Hr.
  - apply IH. exact Hr.
Qed.

(** X21: a signal whose disposition is "ignore" when [set_handler_term]
    is called keeps its entry: the handler is not installed on it. *)
Theorem set_handler_term_keeps_ignored
        (p : Signals.platform) (func : Signals.handler)
        (tbl : gmap Z Signals.sigaction_t) (sig : Z) :
  Signals.is_ign (Signals.sa_handler (Signals.current tbl sig)) = true ->
  Signals.set_handler_term p func tbl !! sig = tbl !! sig.
Proof.
  intros Hign. unfold Signals.set_handler_term.
  apply install_keeps_ignored. exact Hign.
Qed.

(** SIGHUP ignored, as under [nohup]. *)
Lemma set_handler_term_keeps_ignored_witness :
  let tbl : gmap Z Signals.sigaction_t :=
    {[ 1%Z := Signals.mk_sigaction Signals.SIG_IGN 0 ∅ ]} in
  Signals.is_ign (Signals.sa_handler (Signals.current tbl 1)) = true
  /\ Signals.set_handler_term Signals.linux (Signals.Func 1) tbl !! 1%Z
     = Some (Signals.mk_sigaction Signals.SIG_IGN 0 ∅).
Proof.
  cbv zeta.
  assert (H : Signals.is_ign
                (Signals.sa_handler
                   (Signals.current
                      {[ 1%Z := Signals.mk_sigaction Signals.SIG_IGN 0 ∅ ]}
                      1)) = true) by reflexivity.
  split; [exact H|].
  rewrite (set_handler_term_keeps_ignored Signals.linux (Signals.Func 1)
             {[ 1%Z := Signals.mk_sigaction Signals.SIG_IGN 0 ∅ ]} 1 H).
  reflexivity.
Defined.

(** X22: on every platform, each signal of the list that is not ignored
    ends up with the caller's handler, the flag [SA_RESTART], and a mask
    that holds the signal itself and only signals of the list. *)
Theorem set_handler_term_installs
        (p : Signals.platform) (func : Signals.handler)
        (tbl : gmap Z Signals.sigaction_t) (sig : Z) :
  In sig (Signals.term_sigs p) ->
  Signals.is_ign (Signals.sa_handler (Signals.current tbl sig)) = false ->
  exists a,
    Signals.set_handler_term p func tbl !! sig = Some a
    /\ Signals.sa_handler a = func
    /\ Signals.sa_flags a = Signals.SA_RESTART p
    /\ sig ∈ Signals.sa_mask a
    /\ forall x, x ∈ Signals.sa_mask a -> In x (Signals.term_sigs p).
Proof.
  intros Hin Hign. unfold Signals.set_handler_term.
  destruct (install_new_entry (Signals.term_sigs p)
              (Signals.mk_sigaction func (Signals.SA_RESTART p) ∅)
              tbl sig Hin Hign) as (a & Ha & Hh & Hf & Hm & Hsub).
  exists a. repeat split; try assumption.
  intros x Hx. destruct (Hsub x Hx) as [H|H]; [|exact H].
  cbn [Signals.sa_mask] in H. apply not_elem_of_empty in H. destruct H.
Qed.

(** SIGQUIT on Linux, starting from the default dispositions. *)
Lemma set_handler_term_installs_witness :
  In 3%Z (Signals.term_sigs Signals.linux)
  /\ Signals.is_ign (Signals.sa_handler (Signals.current ∅ 3)) = false
  /\ exists a,
      Signals.set_handler_term Signals.linux (Signals.Func 1) ∅ !! 3%Z
      = Some a
      /\ Signals.sa_handler a = Signals.Func 1
      /\ Signals.sa_flags a = Signals.SA_RESTART Signals.linux
      /\ 3%Z ∈ Signals.sa_mask a.
Proof.
  assert (H1 : In 3%Z (Signals.term_sigs Signals.linux))
    by (cbv; tauto).
  assert (H2 : Signals.is_ign
                 (Signals.sa_handler (Signals.current ∅ 3)) = false)
    by reflexivity.
  split; [exact H1|]. split; [exact H2|].
  destruct (set_handler_term_installs Signals.linux (Signals.Func 1) ∅ 3
              H1 H2) as (a & Ha & Hh & Hf & Hm & _).
  exists a. repeat split; assumption.
Defined.

(** X23: [set_handler_term] does not touch a signal outside its list, so
    it commutes with [set_handler_segv] and with [reset_handler] on such
    a signal: the order of the calls does not matter. *)
Theorem set_handler_term_commutes
        (p : Signals.platform) (func segv_func : Signals.handler)
        (SIGSEGV : Z) (every : gset Z) (valid : Z -> bool)
        (tbl : gmap Z Signals.sigaction_t) :
  ~ In SIGSEGV (Signals.term_sigs p) ->
  Signals.set_handler_term p func tbl !! SIGSEGV = tbl !! SIGSEGV
  /\ Signals.set_handler_term p func
       (Handlers.set_handler_segv SIGSEGV every segv_func tbl)
     = Handlers.set_handler_segv SIGSEGV every segv_func
         (Signals.set_handler_term p func tbl)
  /\ Signals.set_handler_term p func
       (Handlers.reset_handler valid SIGSEGV tbl)
     = Handlers.reset_handler valid SIGSEGV
         (Signals.set_handler_term p func tbl).
Proof.
  intros Hn. unfold Signals.set_handler_term, Handlers.set_handler_segv,
               Handlers.reset_handler.
  split; [apply SignalsFacts.install_other; exact Hn|].
  split; [apply install_insert_comm; exact Hn|].
  destruct (valid SIGSEGV); [apply install_insert_comm; exact Hn|reflexivity].
Qed.

(** SIGSEGV (11) is not a terminal signal on Linux. *)
Lemma set_handler_term_commutes_witness :
  ~ In 11%Z (Signals.term_sigs Signals.linux)
  /\ Signals.set_handler_term Signals.linux (Signals.Func 1)
       (Handlers.set_handler_segv 11 ∅ (Signals.Func 2) ∅)
     = Handlers.set_handler_segv 11 ∅ (Signals.Func 2)
         (Signals.set_handler_term Signals.linux (Signals.Func 1) ∅).
Proof.
  assert (H : ~ In 11%Z (Signals.term_sigs Signals.linux)).
  { cbv. intros H. repeat (destruct H as [H|H]; [discriminate H|]).
    exact H. }
  split; [exact H|].
  exact (proj1 (proj2 (set_handler_term_commutes
                         Signals.linux (Signals.Func 1) (Signals.Func 2)
                         11 ∅ (fun _ => true) ∅ H))).
Defined.

(** X24: [reset_handler] undoes the installers.  On a signal whose
    action can be set, it leaves the default action with no flag and an
    empty mask, and touches no other signal; after [set_handler_segv] on
    the same signal the table is the one a reset alone gives.  On any
    other number it changes nothing. *)
Theorem reset_handler_restores_default
        (valid : Z -> bool) (signo other : Z) (every : gset Z)
        (func : Signals.handler) (tbl : gmap Z Signals.sigaction_t) :
  (if valid signo
   then Signals.current (Handlers.reset_handler valid signo tbl) signo
        = Signals.zeroed
        /\ Handlers.reset_handler valid signo
             (Handlers.set_handler_segv signo every func tbl)
           = Handlers.reset_handler valid signo tbl
   else Handlers.reset_handler valid signo tbl = tbl)
  /\ (other <> signo ->
      Handlers.reset_handler valid signo tbl !! other = tbl !! other).
Proof.
  unfold Handlers.reset_handler, Handlers.set_handler_segv, Signals.current.
  destruct (valid signo).
  - split; [split|].
    + rewrite lookup_insert_eq. reflexivity.
    + apply insert_insert_eq.
    + intros Hne. apply lookup_insert_ne. congruence.
  - split; [reflexivity | intros _; reflexivity].
Qed.

End SignalsMore.
